(** * Gestão de Efetivo (DLF/SAD): the state engine of [gestao_efetivo_app.py]

    A shallow embedding of the data model, the JSON persistence and the two
    form handlers of the Streamlit application, followed by the properties
    of the domain core: identifier assignment, balance deduction, frames,
    error paths, the snapshot round trip and the dashboard counter.

    Python values are modelled as follows: [int] is [Z], [str] is [string]
    (the bytes of its UTF-8 encoding, whose lexicographic order is the order
    of the code points), a [list] is a [list], the dict [options] is a
    [gmap], a dataclass is a record, [datetime.date] is a record of year,
    month and day with CPython's ordinal arithmetic.  The objects held by
    [state.personnel] are pairwise distinct (each is built by its own
    constructor call, in [load_state] or in [page_personnel]), so the
    in-place assignment to [person.saldoFerias] is the update of the list
    at the position where [find_person_by_id] found [person]. *)

From Stdlib Require Import ZArith String Ascii List.
From stdpp Require Import base option list strings pretty gmap sorting.

Local Open Scope string_scope.
Local Open Scope Z_scope.
Local Set Warnings "-register-all".

(** ** Enumerations (lines 14-46) *)

Inductive Rank :=
  | CEL | TC | MAJ | CAP | TEN_1 | TEN_2 | ST | SGT_1 | SGT_2 | SGT_3
  | CB | SD | FCIVIL.

Definition Rank_value (r : Rank) : string :=
  match r with
  | CEL => "CEL" | TC => "TC" | MAJ => "MAJ" | CAP => "CAP"
  | TEN_1 => "1º TEN" | TEN_2 => "2º TEN" | ST => "ST"
  | SGT_1 => "1º SGT" | SGT_2 => "2º SGT" | SGT_3 => "3º SGT"
  | CB => "CB" | SD => "SD" | FCIVIL => "F.CIVIL"
  end.

Inductive UserRole := ADMIN | MANAGER | USER.

Definition UserRole_value (r : UserRole) : string :=
  match r with ADMIN => "ADMIN" | MANAGER => "MANAGER" | USER => "USER" end.

Inductive LeaveType :=
  | FERIAS | ABONO | LTSP | RESTRICAO | LICENCA_ESPECIAL | LTIP
  | PRONTO_EMPREGO | EXTRA | REPRESENTACAO | DISPENSA_RECOMPENSA.

Global Instance LeaveType_eq_dec : EqDecision LeaveType.
Proof. solve_decision. Defined.

Definition LeaveType_value (t : LeaveType) : string :=
  match t with
  | FERIAS => "FÉRIAS" | ABONO => "ABONO" | LTSP => "LTSP"
  | RESTRICAO => "RESTRIÇÃO" | LICENCA_ESPECIAL => "LICENÇA ESPECIAL"
  | LTIP => "LTIP" | PRONTO_EMPREGO => "PRONTO EMPREGO" | EXTRA => "EXTRA"
  | REPRESENTACAO => "REPRESENTAÇÃO"
  | DISPENSA_RECOMPENSA => "DISPENSA RECOMPENSA"
  end.

Definition all_Rank : list Rank :=
  [CEL; TC; MAJ; CAP; TEN_1; TEN_2; ST; SGT_1; SGT_2; SGT_3; CB; SD; FCIVIL].
Definition all_UserRole : list UserRole := [ADMIN; MANAGER; USER].
Definition all_LeaveType : list LeaveType :=
  [FERIAS; ABONO; LTSP; RESTRICAO; LICENCA_ESPECIAL; LTIP; PRONTO_EMPREGO;
   EXTRA; REPRESENTACAO; DISPENSA_RECOMPENSA].

(** ** Dataclasses (lines 49-80) *)

Module Personnel.
Record t := mk {
  id : string;
  ant : Z;
  grad : string;
  quadro : string;
  nome : string;
  matr : string;
  unid : string;
  secao : string;
  situacao : string;
  esc : string;
  saldoFerias : Z;
  saldoAbono : Z;
  role : string
}.

(** [person.saldoFerias = v] and [person.saldoAbono = v]. *)
Definition set_saldoFerias (v : Z) (p : t) : t :=
  mk (id p) (ant p) (grad p) (quadro p) (nome p) (matr p) (unid p)
     (secao p) (situacao p) (esc p) v (saldoAbono p) (role p).
Definition set_saldoAbono (v : Z) (p : t) : t :=
  mk (id p) (ant p) (grad p) (quadro p) (nome p) (matr p) (unid p)
     (secao p) (situacao p) (esc p) (saldoFerias p) v (role p).
End Personnel.

Module LeaveRecord.
Record t := mk {
  id : string;
  personnel_id : string;
  type : string;
  startDate : string;
  endDate : string;
  description : string;
  createdAt : string
}.
End LeaveRecord.

Record AppState := mkAppState {
  personnel : list Personnel.t;
  leaves : list LeaveRecord.t
}.

(** ** [datetime.date]

    The form widgets hand the page [datetime.date] values.  The three
    operations the page uses are comparison, subtraction ([.days] of the
    difference) and [isoformat], written here as CPython's [datetime]
    module computes them. *)

Module Date.
Record t := mk { year : Z; month : Z; day : Z }.

Definition is_leap (y : Z) : bool :=
  (y mod 4 =? 0) && (negb (y mod 100 =? 0) || (y mod 400 =? 0)).

Definition DAYS_IN_MONTH : list Z :=
  [-1; 31; 28; 31; 30; 31; 30; 31; 31; 30; 31; 30; 31].
Definition DAYS_BEFORE_MONTH : list Z :=
  [-1; 0; 31; 59; 90; 120; 151; 181; 212; 243; 273; 304; 334].

Definition days_before_year (y : Z) : Z :=
  let y' := y - 1 in y' * 365 + y' / 4 - y' / 100 + y' / 400.

Definition days_in_month (y m : Z) : Z :=
  if (m =? 2) && is_leap y then 29 else nth (Z.to_nat m) DAYS_IN_MONTH 0.

Definition days_before_month (y m : Z) : Z :=
  nth (Z.to_nat m) DAYS_BEFORE_MONTH 0
  + (if (2 <? m) && is_leap y then 1 else 0).

Definition toordinal (d : t) : Z :=
  days_before_year (year d) + days_before_month (year d) (month d) + day d.

(** A value the [date] constructor accepts. *)
Definition valid (d : t) : bool :=
  (1 <=? year d) && (year d <=? 9999) && (1 <=? month d) && (month d <=? 12)
  && (1 <=? day d) && (day d <=? days_in_month (year d) (month d)).

(** [a < b]: the comparison of the tuples (year, month, day). *)
Definition ltb (a b : t) : bool :=
  (year a <? year b)
  || ((year a =? year b)
      && ((month a <? month b)
          || ((month a =? month b) && (day a <? day b)))).

(** [(a - b).days] *)
Definition sub_days (a b : t) : Z := toordinal a - toordinal b.

(** ["%04d-%02d-%02d" % (year, month, day)] *)
Definition zfill (w : nat) (s : string) : string :=
  string_of_list_ascii (replicate (w - String.length s)%nat "0"%char) +:+ s.

Definition isoformat (d : t) : string :=
  zfill 4 (pretty (year d)) +:+ "-" +:+ zfill 2 (pretty (month d))
  +:+ "-" +:+ zfill 2 (pretty (day d)).
End Date.


(** ** Python values and exceptions

    [pyval] is what [json.load] returns and [json.dump] accepts: the parsed
    document, with a dict as the list of its items (one item per key, in
    insertion order).  Numbers with a fraction are left out: no field of
    the program holds one.  The text of the file is the business of
    Python's [json] module; the file is modelled by the document it
    holds. *)

Inductive pyval :=
  | VNone
  | VBool (b : bool)
  | VInt (z : Z)
  | VStr (s : string)
  | VList (l : list pyval)
  | VDict (d : list (string * pyval)).

Inductive py_exception := AttributeError | KeyError | TypeError.

(** [d.get(k)] on the items of a dict. *)
Fixpoint dict_get (k : string) (d : list (string * pyval)) : option pyval :=
  match d with
  | [] => None
  | (k', v) :: d' => if String.eqb k' k then Some v else dict_get k d'
  end.

Definition as_str (v : pyval) : option string :=
  match v with VStr s => Some s | _ => None end.
Definition as_int (v : pyval) : option Z :=
  match v with VInt z => Some z | _ => None end.

(** The result of building dataclass objects from a document.  The
    dataclasses check no type at run time, so a constructor call stores
    whatever value it is given: [BuiltUntyped] stands for an object (or a
    list of objects) that Python returns normally but one of whose fields
    holds a value outside its annotation, which the typed records above
    cannot represent. *)
Inductive built (A : Type) :=
  | Built (a : A)
  | BuiltUntyped
  | BuildRaised (e : py_exception).
Arguments Built {A} a.
Arguments BuiltUntyped {A}.
Arguments BuildRaised {A} e.

(** [Cls( **p)]: a [TypeError] unless [p] is a mapping whose keys are exactly
    the field names of the dataclass (no field has a default). *)
Definition kwargs_match (fields : list string) (kw : list (string * pyval)) : bool :=
  forallb (fun k => existsb (String.eqb k) fields) (map fst kw)
  && forallb (fun f => existsb (String.eqb f) (map fst kw)) fields.

Definition Personnel_fields : list string :=
  ["id"; "ant"; "grad"; "quadro"; "nome"; "matr"; "unid"; "secao";
   "situacao"; "esc"; "saldoFerias"; "saldoAbono"; "role"].

Definition LeaveRecord_fields : list string :=
  ["id"; "personnel_id"; "type"; "startDate"; "endDate"; "description";
   "createdAt"].

Definition Personnel_typed (kw : list (string * pyval)) : option Personnel.t :=
  id ← dict_get "id" kw ≫= as_str;
  ant ← dict_get "ant" kw ≫= as_int;
  grad ← dict_get "grad" kw ≫= as_str;
  quadro ← dict_get "quadro" kw ≫= as_str;
  nome ← dict_get "nome" kw ≫= as_str;
  matr ← dict_get "matr" kw ≫= as_str;
  unid ← dict_get "unid" kw ≫= as_str;
  secao ← dict_get "secao" kw ≫= as_str;
  situacao ← dict_get "situacao" kw ≫= as_str;
  esc ← dict_get "esc" kw ≫= as_str;
  saldoFerias ← dict_get "saldoFerias" kw ≫= as_int;
  saldoAbono ← dict_get "saldoAbono" kw ≫= as_int;
  role ← dict_get "role" kw ≫= as_str;
  Some (Personnel.mk id ant grad quadro nome matr unid secao situacao esc
          saldoFerias saldoAbono role).

Definition LeaveRecord_typed (kw : list (string * pyval)) : option LeaveRecord.t :=
  id ← dict_get "id" kw ≫= as_str;
  personnel_id ← dict_get "personnel_id" kw ≫= as_str;
  type ← dict_get "type" kw ≫= as_str;
  startDate ← dict_get "startDate" kw ≫= as_str;
  endDate ← dict_get "endDate" kw ≫= as_str;
  description ← dict_get "description" kw ≫= as_str;
  createdAt ← dict_get "createdAt" kw ≫= as_str;
  Some (LeaveRecord.mk id personnel_id type startDate endDate description
          createdAt).

(** [Personnel( **p)] and [LeaveRecord( **l)] (lines 102-103). *)
Definition Personnel_kwargs (p : pyval) : built Personnel.t :=
  match p with
  | VDict kw =>
      if kwargs_match Personnel_fields kw then
        match Personnel_typed kw with
        | Some x => Built x
        | None => BuiltUntyped
        end
      else BuildRaised TypeError
  | _ => BuildRaised TypeError
  end.

Definition LeaveRecord_kwargs (l : pyval) : built LeaveRecord.t :=
  match l with
  | VDict kw =>
      if kwargs_match LeaveRecord_fields kw then
        match LeaveRecord_typed kw with
        | Some x => Built x
        | None => BuiltUntyped
        end
      else BuildRaised TypeError
  | _ => BuildRaised TypeError
  end.

(** [for p in v]: the elements of a list, the keys of a dict, the
    characters of a string; anything else is not iterable. *)
Definition py_iter (v : pyval) : built (list pyval) :=
  match v with
  | VList l => Built l
  | VDict d => Built (map (fun kv => VStr (fst kv)) d)
  | VStr s => Built (map (fun c => VStr (String c EmptyString)) (list_ascii_of_string s))
  | _ => BuildRaised TypeError
  end.

(** The list comprehension [[f(x) for x in xs]]: elements are built from
    left to right and the first exception ends the evaluation. *)
Fixpoint comprehension {A} (f : pyval → built A) (xs : list pyval) : built (list A) :=
  match xs with
  | [] => Built []
  | x :: xs' =>
      match f x with
      | BuildRaised e => BuildRaised e
      | Built a =>
          match comprehension f xs' with
          | Built l => Built (a :: l)
          | BuiltUntyped => BuiltUntyped
          | BuildRaised e => BuildRaised e
          end
      | BuiltUntyped =>
          match comprehension f xs' with
          | BuildRaised e => BuildRaised e
          | _ => BuiltUntyped
          end
      end
  end.

Definition comprehension_over {A} (f : pyval → built A) (v : pyval) : built (list A) :=
  match py_iter v with
  | Built xs => comprehension f xs
  | BuiltUntyped => BuiltUntyped
  | BuildRaised e => BuildRaised e
  end.

(** ** Persistence (lines 87-113) *)

Definition default_state : AppState := mkAppState [] [].

(** [asdict(p)] *)
Definition asdict_Personnel (p : Personnel.t) : pyval :=
  VDict [("id", VStr (Personnel.id p)); ("ant", VInt (Personnel.ant p));
         ("grad", VStr (Personnel.grad p)); ("quadro", VStr (Personnel.quadro p));
         ("nome", VStr (Personnel.nome p)); ("matr", VStr (Personnel.matr p));
         ("unid", VStr (Personnel.unid p)); ("secao", VStr (Personnel.secao p));
         ("situacao", VStr (Personnel.situacao p)); ("esc", VStr (Personnel.esc p));
         ("saldoFerias", VInt (Personnel.saldoFerias p));
         ("saldoAbono", VInt (Personnel.saldoAbono p));
         ("role", VStr (Personnel.role p))].

Definition asdict_LeaveRecord (l : LeaveRecord.t) : pyval :=
  VDict [("id", VStr (LeaveRecord.id l));
         ("personnel_id", VStr (LeaveRecord.personnel_id l));
         ("type", VStr (LeaveRecord.type l));
         ("startDate", VStr (LeaveRecord.startDate l));
         ("endDate", VStr (LeaveRecord.endDate l));
         ("description", VStr (LeaveRecord.description l));
         ("createdAt", VStr (LeaveRecord.createdAt l))].

(** [load_state]: the argument is the content of [DATA_FILE], [None] when
    the file does not exist. *)
Definition load_state (data_file : option pyval) : built AppState :=
  match data_file with
  | None => Built default_state
  | Some (VDict raw) =>
      match comprehension_over Personnel_kwargs
              (default (VList []) (dict_get "personnel" raw)) with
      | BuildRaised e => BuildRaised e
      | ps =>
          match comprehension_over LeaveRecord_kwargs
                  (default (VList []) (dict_get "leaves" raw)) with
          | BuildRaised e => BuildRaised e
          | ls =>
              match ps, ls with
              | Built personnel, Built leaves => Built (mkAppState personnel leaves)
              | _, _ => BuiltUntyped
              end
          end
      end
  | Some _ => BuildRaised AttributeError
  end.

(** [save_state]: the new content of [DATA_FILE]. *)
Definition save_state (state : AppState) : option pyval :=
  Some (VDict [("personnel", VList (map asdict_Personnel (personnel state)));
               ("leaves", VList (map asdict_LeaveRecord (leaves state)))]).

(** ** Helpers (lines 120-136) *)

(** [f"{prefix}{len(elements) + 1}"] *)
Definition generate_id {A} (prefix : string) (elements : list A) : string :=
  prefix +:+ pretty (Z.of_nat (length elements) + 1).

(** The [for] loop of [find_person_by_id] returns the first element whose
    [id] equals [pid]; [find_person_ref] also tells where in the list that
    object sits. *)
Definition find_person_ref (state : AppState) (pid : string)
  : option (nat * Personnel.t) :=
  list_find (λ p, Personnel.id p = pid) (personnel state).

Definition find_person_by_id (state : AppState) (pid : string)
  : option Personnel.t :=
  snd <$> find_person_ref state pid.

Definition get_leaves_for_person (state : AppState) (pid : string)
  : list LeaveRecord.t :=
  filter (λ l, LeaveRecord.personnel_id l = pid) (leaves state).

(** ** The pages

    A page function reads and mutates the session's [AppState] and may
    rewrite [DATA_FILE]; both are carried by [World].  What a page shows
    for the submitted form is its [outcome]. *)

Record World := mkWorld {
  state : AppState;
  data_file : option pyval
}.

Inductive outcome :=
  | Rendered                    (* the page was drawn, no form was submitted *)
  | StWarning (msg : string)    (* st.warning(msg) followed by return *)
  | StError (msg : string)      (* st.error(msg): the submission is refused *)
  | StSuccess (msg : string)    (* st.success(msg), then the script reruns *)
  | Raised (e : py_exception).  (* an uncaught exception ends the script *)

(** *** [page_dashboard] (lines 146-156): the two metrics *)

Definition on_vacation (hoje : string) (l : LeaveRecord.t) : bool :=
  String.eqb (LeaveRecord.type l) (LeaveType_value FERIAS)
  && (String.leb (LeaveRecord.startDate l) hoje
      && String.leb hoje (LeaveRecord.endDate l)).

Definition em_ferias (state : AppState) (hoje : string) : Z :=
  foldl (λ n l, if on_vacation hoje l then n + 1 else n) 0 (leaves state).

Definition page_dashboard (state : AppState) (today : Date.t) : Z * Z :=
  let total := Z.of_nat (length (personnel state)) in
  let hoje := Date.isoformat today in
  (total, em_ferias state hoje).

(** *** [page_personnel] (lines 221-262): the form "novo_militar"

    [grad] and [role] come from select boxes over the enumerations; the
    number inputs are integers, bounded below by the widget ([min_value]). *)

Record PersonnelForm := mkPersonnelForm {
  f_nome : string;
  f_matr : string;
  f_ant : Z;
  f_grad : Rank;
  f_quadro : string;
  f_unid : string;
  f_secao : string;
  f_situacao : string;
  f_esc : string;
  f_saldo_ferias : Z;
  f_saldo_abono : Z;
  f_role : UserRole
}.

(** What [st.number_input] guarantees of its value. *)
Definition number_inputs_ok (f : PersonnelForm) : Prop :=
  1 ≤ f_ant f ∧ 0 ≤ f_saldo_ferias f ∧ 0 ≤ f_saldo_abono f.

Definition is_empty (s : string) : bool :=
  match s with EmptyString => true | _ => false end.

Definition page_personnel (w : World) (submitted : bool) (f : PersonnelForm)
  : outcome * World :=
  if submitted then
    if is_empty (f_nome f) || is_empty (f_matr f) then
      (StError "Nome e matrícula são obrigatórios.", w)
    else
      let new :=
        Personnel.mk (generate_id "P" (personnel (state w)))
          (f_ant f) (Rank_value (f_grad f)) (f_quadro f) (f_nome f) (f_matr f)
          (f_unid f) (f_secao f) (f_situacao f) (f_esc f)
          (f_saldo_ferias f) (f_saldo_abono f) (UserRole_value (f_role f)) in
      let state' :=
        mkAppState (personnel (state w) ++ [new])%list (leaves (state w)) in
      (StSuccess ("Militar " +:+ f_nome f +:+ " cadastrado com sucesso!"),
       mkWorld state' (save_state state'))
  else (Rendered, w).

(** *** [page_leaves] (lines 265-328): the form "novo_afastamento" *)

Record LeaveForm := mkLeaveForm {
  f_tipo : LeaveType;
  f_start : Date.t;
  f_end : Date.t;
  f_desc : string
}.

Definition person_label (p : Personnel.t) : string :=
  Personnel.nome p +:+ " (" +:+ Personnel.grad p +:+ " - " +:+ Personnel.matr p +:+ ")".

(** The dict comprehension of lines 273-275: a later person with the same
    label replaces the identifier stored under it. *)
Definition options (state : AppState) : gmap string string :=
  foldl (λ m p, <[person_label p := Personnel.id p]> m) ∅ (personnel state).

(** Lines 321-324: the two [if]s that follow the append of the record. *)
Definition adjust_balances (tipo : string) (days : Z) (person : Personnel.t)
  : Personnel.t :=
  let person1 :=
    if String.eqb tipo (LeaveType_value FERIAS) then
      Personnel.set_saldoFerias
        (Z.max 0 (Personnel.saldoFerias person - days)) person
    else person in
  if String.eqb tipo (LeaveType_value ABONO) then
    Personnel.set_saldoAbono
      (Z.max 0 (Personnel.saldoAbono person1 - days)) person1
  else person1.

(** Lines 278-328, from the lookup of the selected identifier on: the
    operation the specification calls logLeave.  [now] is the text of
    [datetime.now().isoformat()].  Line 281 reads [person.nome], which
    raises [AttributeError] when the lookup returned [None]. *)
Definition logLeave (w : World) (selected_id : string) (enviar : bool)
    (f : LeaveForm) (now : string) : outcome * World :=
  match find_person_ref (state w) selected_id with
  | None => (Raised AttributeError, w)
  | Some (i, person) =>
      if enviar then
        if Date.ltb (f_end f) (f_start f) then
          (StError "Data de término não pode ser anterior à data de início.", w)
        else
          let tipo := LeaveType_value (f_tipo f) in
          let new_leave :=
            LeaveRecord.mk (generate_id "L" (leaves (state w)))
              (Personnel.id person) tipo
              (Date.isoformat (f_start f)) (Date.isoformat (f_end f))
              (f_desc f) now in
          let leaves' := (leaves (state w) ++ [new_leave])%list in
          let days := Date.sub_days (f_end f) (f_start f) + 1 in
          let person' := adjust_balances tipo days person in
          let state' := mkAppState (<[i := person']> (personnel (state w))) leaves' in
          (StSuccess "Afastamento lançado com sucesso!",
           mkWorld state' (save_state state'))
      else (Rendered, w)
  end.

(** The whole page: [label] is the entry chosen in the select box. *)
Definition page_leaves (w : World) (label : string) (enviar : bool)
    (f : LeaveForm) (now : string) : outcome * World :=
  match personnel (state w) with
  | [] => (StWarning "Primeiro cadastre ao menos um militar na aba 'Efetivo'.", w)
  | _ :: _ =>
      match options (state w) !! label with
      | None => (Raised KeyError, w)
      | Some selected_id => logLeave w selected_id enviar f now
      end
  end.

(** *** [main] (lines 381-384): a session starts by loading the file *)

Definition start_session (data_file : option pyval) : option World :=
  match load_state data_file with
  | Built st => Some (mkWorld st data_file)
  | _ => None
  end.

(** ** Reachable worlds

    [reachable d0 w]: the program, started on a machine whose [DATA_FILE]
    holds [d0], can be in world [w]: after the load that opens a session,
    after a submission of either form, after a new session has loaded the
    file again. *)

Inductive reachable (d0 : option pyval) : World → Prop :=
  | reach_start w :
      start_session d0 = Some w → reachable d0 w
  | reach_personnel w submitted f :
      reachable d0 w → number_inputs_ok f →
      reachable d0 (page_personnel w submitted f).2
  | reach_leave w selected_id enviar f now :
      reachable d0 w →
      reachable d0 (logLeave w selected_id enviar f now).2
  | reach_session w w' :
      reachable d0 w → start_session (data_file w) = Some w' →
      reachable d0 w'.

(** ** State predicates *)

Definition balances_nonneg (st : AppState) : Prop :=
  Forall (λ p, 0 ≤ Personnel.saldoFerias p ∧ 0 ≤ Personnel.saldoAbono p)
         (personnel st).

(** Two persons that differ at most in the two balances. *)
Definition same_but_balances (p q : Personnel.t) : Prop :=
  Personnel.id p = Personnel.id q ∧ Personnel.ant p = Personnel.ant q
  ∧ Personnel.grad p = Personnel.grad q ∧ Personnel.quadro p = Personnel.quadro q
  ∧ Personnel.nome p = Personnel.nome q ∧ Personnel.matr p = Personnel.matr q
  ∧ Personnel.unid p = Personnel.unid q ∧ Personnel.secao p = Personnel.secao q
  ∧ Personnel.situacao p = Personnel.situacao q
  ∧ Personnel.esc p = Personnel.esc q ∧ Personnel.role p = Personnel.role q.

(** The [n]-th element (counting from 1) carries the identifier made of the
    prefix and [n]. *)
Definition positional {A} (prefix : string) (ident : A → string) (l : list A) : Prop :=
  ∀ (i : nat) x, l !! i = Some x → ident x = prefix +:+ pretty (Z.of_nat i + 1).

Definition ids_positional (st : AppState) : Prop :=
  positional "P" Personnel.id (personnel st)
  ∧ positional "L" LeaveRecord.id (leaves st).

(** The range test of the dashboard, and the count the specification
    describes for it: the persons of the collection who own at least one
    vacation record whose range holds [hoje]. *)
Definition persons_on_vacation (st : AppState) (hoje : string) : Z :=
  Z.of_nat (length (filter
    (λ p, existsb (λ l, on_vacation hoje l
                        && String.eqb (LeaveRecord.personnel_id l) (Personnel.id p))
                  (leaves st) = true)
    (personnel st))).

(** Whether a string is the value of a member of an enumeration. *)
Definition is_value_of {E} (value : E → string) (all : list E) (s : string) : bool :=
  existsb (λ e, String.eqb (value e) s) all.

(** The shape of a snapshot as section 6 of the specification lays it out:
    a mapping with the two keys, each a list of mappings with exactly the
    fields of the entity, every value of the field's type. *)
Definition entry_matches {A} (fields : list string)
    (typed : list (string * pyval) → option A) (v : pyval) : bool :=
  match v with
  | VDict kw => kwargs_match fields kw && bool_decide (is_Some (typed kw))
  | _ => false
  end.

Definition matches_schema (doc : pyval) : bool :=
  match doc with
  | VDict raw =>
      kwargs_match ["personnel"; "leaves"] raw
      && match dict_get "personnel" raw, dict_get "leaves" raw with
         | Some (VList ps), Some (VList ls) =>
             forallb (entry_matches Personnel_fields Personnel_typed) ps
             && forallb (entry_matches LeaveRecord_fields LeaveRecord_typed) ls
         | _, _ => false
         end
  | _ => false
  end.

(** A submission of either form, as one operation on the world. *)
Inductive submission :=
  | SubmitPersonnel (f : PersonnelForm)
  | SubmitLeave (selected_id : string) (f : LeaveForm) (now : string).

Definition submit (w : World) (s : submission) : outcome * World :=
  match s with
  | SubmitPersonnel f => page_personnel w true f
  | SubmitLeave selected_id f now => logLeave w selected_id true f now
  end.

(** The digits of a zero-padded decimal, for reasoning about [isoformat]:
    [str2 n] and [str4 n] are the two and four digits of [n]. *)
Definition digit (k : Z) : ascii := ascii_of_N (48 + Z.to_N k).
Definition str2 (n : Z) : string := String (digit (n / 10)) (String (digit (n mod 10)) "").
Definition str4 (n : Z) : string :=
  String (digit (n / 1000)) (String (digit (n / 100 mod 10)) (str2 (n mod 100))).

(** ** Sample data *)

Definition maria_form : PersonnelForm :=
  mkPersonnelForm "Maria Silva" "12345" 1 SD "QPPMC" "DLF" "SAD" "ATIVO" "EXP"
    30 5 USER.

Definition w_fresh : World := mkWorld default_state None.
Definition w_maria : World := (page_personnel w_fresh true maria_form).2.

Definition ferias_jan : LeaveForm :=
  mkLeaveForm FERIAS (Date.mk 2024 1 1) (Date.mk 2024 1 10) "ferias".
Definition ferias_overlap : LeaveForm :=
  mkLeaveForm FERIAS (Date.mk 2024 1 3) (Date.mk 2024 1 7) "lancado de novo".
Definition restricao_jan : LeaveForm :=
  mkLeaveForm RESTRICAO (Date.mk 2024 1 1) (Date.mk 2024 1 10) "restricao".
Definition reversed_range : LeaveForm :=
  mkLeaveForm FERIAS (Date.mk 2024 1 10) (Date.mk 2024 1 1) "".

Definition w_ferias : World :=
  (logLeave w_maria "P1" true ferias_jan "2024-01-01T09:00:00").2.
Definition w_twice : World :=
  (logLeave w_ferias "P1" true ferias_overlap "2024-01-02T09:00:00").2.

(** A snapshot written by hand or by an import script. *)
Definition p_negative : Personnel.t :=
  Personnel.mk "P1" 1 "SD" "QPPMC" "Rui Costa" "777" "DLF" "SAD" "ATIVO" "EXP"
    (-5) 5 "USER".
Definition doc_negative : pyval :=
  VDict [("personnel", VList [asdict_Personnel p_negative]); ("leaves", VList [])].



(** ** Sorted views and reports *)

(** [sorted(xs, key=k, reverse=True)].  Python's sort is stable, also when
    reversed, and a stable sort has one result: elements in descending
    order of their keys, those with equal keys in their original order.
    That result is computed here by insertion. *)
Fixpoint insert_desc {A} (key : A → string) (x : A) (l : list A) : list A :=
  match l with
  | [] => [x]
  | y :: l' =>
      if String.ltb (key x) (key y) then y :: insert_desc key x l'
      else x :: y :: l'
  end.

Definition sorted_desc {A} (key : A → string) (l : list A) : list A :=
  foldr (insert_desc key) [] l.

(** [page_dashboard] (lines 158-177): the table of the last ten leaves. *)
Record DashboardRow := mkDashboardRow {
  Militar : string;
  Grad : string;
  Tipo : string;
  Inicio : string;
  Fim : string;
  Descricao : string
}.

Definition dashboard_row (state : AppState) (l : LeaveRecord.t) : DashboardRow :=
  let p := find_person_by_id state (LeaveRecord.personnel_id l) in
  mkDashboardRow
    (match p with Some p => Personnel.nome p | None => "(desconhecido)" end)
    (match p with Some p => Personnel.grad p | None => "" end)
    (LeaveRecord.type l) (LeaveRecord.startDate l) (LeaveRecord.endDate l)
    (LeaveRecord.description l).

Definition sorted_leaves (state : AppState) : list LeaveRecord.t :=
  take 10 (sorted_desc LeaveRecord.createdAt (leaves state)).

Definition dashboard_rows (state : AppState) : list DashboardRow :=
  map (dashboard_row state) (sorted_leaves state).

(** What a page shows for a list of rows: the table, or the message that
    there is nothing to show. *)
Inductive shown (R : Type) :=
  | StTable (rows : list R)
  | StInfo (msg : string).
Arguments StTable {R} rows.
Arguments StInfo {R} msg.

Definition page_dashboard_table (state : AppState) : shown DashboardRow :=
  match dashboard_rows state with
  | [] => StInfo "Ainda não há afastamentos cadastrados."
  | rows => StTable rows
  end.

(** [page_leaves] (lines 333-346): the leaves of the selected person. *)
Record HistoryRow := mkHistoryRow {
  h_Tipo : string;
  h_Inicio : string;
  h_Fim : string;
  h_Descricao : string
}.

Definition history_row (l : LeaveRecord.t) : HistoryRow :=
  mkHistoryRow (LeaveRecord.type l) (LeaveRecord.startDate l)
    (LeaveRecord.endDate l) (LeaveRecord.description l).

Definition page_leaves_history (state : AppState) (pid : string) : shown HistoryRow :=
  match get_leaves_for_person state pid with
  | [] => StInfo "Este militar ainda não possui afastamentos lançados."
  | person_leaves =>
      StTable (map history_row (sorted_desc LeaveRecord.startDate person_leaves))
  end.

(** [page_reports] (lines 353-361).  [counts] is a dict filled in a loop:
    its items, in insertion order; an assignment to a key it holds keeps
    the key's place. *)
Fixpoint counts_get (k : string) (counts : list (string * Z)) : option Z :=
  match counts with
  | [] => None
  | (k', v) :: counts' => if String.eqb k' k then Some v else counts_get k counts'
  end.

Fixpoint counts_set (k : string) (v : Z) (counts : list (string * Z))
  : list (string * Z) :=
  match counts with
  | [] => [(k, v)]
  | (k', v') :: counts' =>
      if String.eqb k' k then (k', v) :: counts'
      else (k', v') :: counts_set k v counts'
  end.

Definition leave_counts (state : AppState) : list (string * Z) :=
  foldl (λ counts l,
           counts_set (LeaveRecord.type l)
             (default 0 (counts_get (LeaveRecord.type l) counts) + 1) counts)
        [] (leaves state).

Definition page_reports (state : AppState) : shown (string * Z) :=
  match leave_counts state with
  | [] => StInfo "Ainda não há afastamentos lançados."
  | rows => StTable rows
  end.

Definition descending {A} (key : A → string) (x y : A) : Prop :=
  String.leb (key y) (key x) = true.

Definition counts_total (counts : list (string * Z)) : Z :=
  foldr (λ kv n, kv.2 + n) 0 counts.

(** More sample data: a second person, and a leave for each. *)
Definition joao_form : PersonnelForm :=
  mkPersonnelForm "João Souza" "67890" 2 CB "QPPMC" "DLF" "SAD" "ATIVO" "EXP"
    30 5 MANAGER.
Definition abono_fev : LeaveForm :=
  mkLeaveForm ABONO (Date.mk 2024 2 5) (Date.mk 2024 2 6) "abono".

Definition w_two : World := (page_personnel w_ferias true joao_form).2.
Definition w_two_leaves : World :=
  (logLeave w_two "P2" true abono_fev "2024-02-01T08:30:00").2.

(** A snapshot with an entry that lacks fields. *)
Definition doc_missing_field : pyval :=
  VDict [("personnel", VList [VDict [("id", VStr "P1"); ("nome", VStr "Rui")]]);
         ("leaves", VList [])].

(** * Properties *)

(** ** Dates: two values computed as Python computes them *)

Example isoformat_ex :
  Date.isoformat (Date.mk 2024 1 10) = "2024-01-10".
Proof. reflexivity. Qed.

Example sub_days_ex :
  Date.sub_days (Date.mk 2024 3 1) (Date.mk 2024 2 1) = 29.
Proof. reflexivity. Qed.

(** *** The order of dates

    For the dates the widgets produce, the comparison of two dates, the
    comparison of their ordinals and the comparison of their ISO texts
    agree. *)

Ltac euclid := Z.to_euclidean_division_equations; lia.

Lemma leap_step y :
  Date.days_before_year (y + 1)
  = Date.days_before_year y + 365 + (if Date.is_leap y then 1 else 0).
Proof.
  unfold Date.days_before_year, Date.is_leap.
  replace (y + 1 - 1) with y by lia.
  destruct (Z.eqb_spec (y mod 4) 0), (Z.eqb_spec (y mod 100) 0),
    (Z.eqb_spec (y mod 400) 0); simpl; euclid.
Qed.

Lemma days_before_year_mono y1 y2 :
  y1 ≤ y2 → Date.days_before_year y1 ≤ Date.days_before_year y2.
Proof. unfold Date.days_before_year. intros. euclid. Qed.

Lemma valid_bounds d :
  Date.valid d = true →
  1 ≤ Date.year d ≤ 9999 ∧ 1 ≤ Date.month d ≤ 12
  ∧ 1 ≤ Date.day d ≤ Date.days_in_month (Date.year d) (Date.month d).
Proof. unfold Date.valid. rewrite !andb_true_iff, !Z.leb_le. lia. Qed.

Ltac month_cases m :=
  let H := fresh in
  assert (m = 1 ∨ m = 2 ∨ m = 3 ∨ m = 4 ∨ m = 5 ∨ m = 6 ∨ m = 7 ∨ m = 8
          ∨ m = 9 ∨ m = 10 ∨ m = 11 ∨ m = 12) as H by lia;
  repeat (destruct H as [->|H]); [..|subst m].

Lemma day_of_year_bounds y m d :
  1 ≤ m ≤ 12 → 1 ≤ d ≤ Date.days_in_month y m →
  1 ≤ Date.days_before_month y m + d ≤ 365 + (if Date.is_leap y then 1 else 0).
Proof.
  intros Hm. unfold Date.days_before_month, Date.days_in_month.
  month_cases m; destruct (Date.is_leap y); simpl; lia.
Qed.

Lemma days_before_month_next y m1 m2 :
  1 ≤ m1 → m1 < m2 → m2 ≤ 12 →
  Date.days_before_month y m1 + Date.days_in_month y m1
  ≤ Date.days_before_month y m2.
Proof.
  intros H1 H12 H2. unfold Date.days_before_month, Date.days_in_month.
  assert (1 ≤ m1 ≤ 12) as Hm1 by lia. assert (1 ≤ m2 ≤ 12) as Hm2 by lia.
  month_cases m1; month_cases m2; try lia; destruct (Date.is_leap y); simpl; lia.
Qed.

Lemma toordinal_lt a b :
  Date.valid a = true → Date.valid b = true →
  Date.ltb a b = true → Date.toordinal a < Date.toordinal b.
Proof.
  intros (Hya & Hma & Hda)%valid_bounds (Hyb & Hmb & Hdb)%valid_bounds.
  unfold Date.ltb, Date.toordinal.
  destruct a as [ya ma da], b as [yb mb db]; simpl in *.
  pose proof (day_of_year_bounds ya ma da Hma Hda) as Ha.
  pose proof (day_of_year_bounds yb mb db Hmb Hdb) as Hb.
  repeat (rewrite orb_true_iff || rewrite andb_true_iff).
  rewrite !Z.ltb_lt, !Z.eqb_eq.
  intros [Hy|[-> [Hm|[-> Hd]]]].
  - pose proof (leap_step ya) as Hs.
    pose proof (days_before_year_mono (ya + 1) yb ltac:(lia)). lia.
  - pose proof (days_before_month_next yb ma mb ltac:(lia) Hm ltac:(lia)). lia.
  - lia.
Qed.

Lemma ltb_toordinal a b :
  Date.valid a = true → Date.valid b = true →
  Date.ltb a b = (Date.toordinal a <? Date.toordinal b).
Proof.
  intros Ha Hb. destruct (Date.ltb a b) eqn:Hab.
  - symmetry. apply Z.ltb_lt. by apply toordinal_lt.
  - symmetry. apply Z.ltb_ge.
    destruct (Date.ltb b a) eqn:Hba.
    + apply Z.lt_le_incl. by apply toordinal_lt.
    + assert (a = b) as ->; [|done].
      unfold Date.ltb in *. destruct a, b; simpl in *.
      repeat (rewrite orb_false_iff in Hab || rewrite andb_false_iff in Hab).
      repeat (rewrite orb_false_iff in Hba || rewrite andb_false_iff in Hba).
      rewrite !Z.ltb_ge, !Z.eqb_neq in Hab, Hba. f_equal; lia.
Qed.

Lemma zfill2_table :
  forallb (λ n, String.eqb (Date.zfill 2 (pretty n)) (str2 n)) (seqZ 0 100) = true.
Proof. by vm_compute. Qed.

Lemma zfill4_table :
  forallb (λ n, String.eqb (Date.zfill 4 (pretty n)) (str4 n)) (seqZ 0 10000) = true.
Proof. by vm_compute. Qed.

Lemma zfill2_pretty n : 0 ≤ n < 100 → Date.zfill 2 (pretty n) = str2 n.
Proof.
  intros Hn. apply String.eqb_eq.
  apply (proj1 (forallb_forall _ _) zfill2_table).
  apply list_elem_of_In, elem_of_seqZ. lia.
Qed.

Lemma zfill4_pretty n : 0 ≤ n < 10000 → Date.zfill 4 (pretty n) = str4 n.
Proof.
  intros Hn. apply String.eqb_eq.
  apply (proj1 (forallb_forall _ _) zfill4_table).
  apply list_elem_of_In, elem_of_seqZ. lia.
Qed.

Lemma digit_compare j k :
  0 ≤ j < 10 → 0 ≤ k < 10 → Ascii.compare (digit j) (digit k) = (j ?= k).
Proof.
  intros Hj Hk. unfold digit, Ascii.compare.
  rewrite !N_ascii_embedding by lia.
  rewrite <- N2Z.inj_compare, !N2Z.inj_add, !Z2N.id by lia.
  apply Z.add_compare_mono_l.
Qed.

Ltac compare_cases :=
  repeat match goal with
  | |- context [?a ?= ?b] =>
      lazymatch goal with
      | |- _ = (a ?= b) => fail
      | |- _ => destruct (Z.compare_spec a b)
      end
  end;
  symmetry;
  first [apply Z.compare_eq_iff | apply Z.compare_lt_iff | apply Z.compare_gt_iff];
  euclid.

Lemma str2_compare m n :
  0 ≤ m < 100 → 0 ≤ n < 100 → String.compare (str2 m) (str2 n) = (m ?= n).
Proof.
  intros Hm Hn. unfold str2. simpl String.compare.
  rewrite !digit_compare by euclid. compare_cases.
Qed.

Lemma str4_compare m n :
  0 ≤ m < 10000 → 0 ≤ n < 10000 → String.compare (str4 m) (str4 n) = (m ?= n).
Proof.
  intros Hm Hn. unfold str4. cbn [String.compare].
  rewrite str2_compare, !digit_compare by euclid. compare_cases.
Qed.

Lemma compare_app s1 s2 t1 t2 :
  String.length s1 = String.length s2 →
  String.compare (s1 +:+ t1) (s2 +:+ t2)
  = match String.compare s1 s2 with
    | Eq => String.compare t1 t2
    | r => r
    end.
Proof.
  revert s2. induction s1 as [|c1 s1 IH]; intros [|c2 s2]; try done.
  intros [= Hlen]. simpl. destruct (Ascii.compare c1 c2); auto.
Qed.

Lemma isoformat_compare a b :
  Date.valid a = true → Date.valid b = true →
  String.compare (Date.isoformat a) (Date.isoformat b)
  = match Date.year a ?= Date.year b with
    | Eq => match Date.month a ?= Date.month b with
            | Eq => Date.day a ?= Date.day b
            | r => r
            end
    | r => r
    end.
Proof.
  intros (Hya & Hma & Hda)%valid_bounds (Hyb & Hmb & Hdb)%valid_bounds.
  assert (∀ y m, 1 ≤ m ≤ 12 → Date.days_in_month y m ≤ 31) as Hdim.
  { intros y m Hm. unfold Date.days_in_month.
    month_cases m; destruct (Date.is_leap y); simpl; lia. }
  pose proof (Hdim (Date.year a) _ Hma). pose proof (Hdim (Date.year b) _ Hmb).
  unfold Date.isoformat.
  rewrite !zfill4_pretty, !zfill2_pretty by lia.
  rewrite compare_app, str4_compare by (done || lia).
  destruct (Date.year a ?= Date.year b); try done.
  change ("-" +:+ ?s) with (String "-" s). cbn [String.compare].
  change (Ascii.compare "-" "-") with Eq. cbn match.
  rewrite compare_app, str2_compare by (done || lia).
  destruct (Date.month a ?= Date.month b); try done.
  change ("-" +:+ ?s) with (String "-" s). cbn [String.compare].
  change (Ascii.compare "-" "-") with Eq. cbn match.
  apply str2_compare; lia.
Qed.

Lemma isoformat_leb a b :
  Date.valid a = true → Date.valid b = true →
  String.leb (Date.isoformat a) (Date.isoformat b) = negb (Date.ltb b a).
Proof.
  intros Ha Hb. unfold String.leb. rewrite isoformat_compare by done.
  unfold Date.ltb.
  destruct (Z.compare_spec (Date.year a) (Date.year b)) as [Hy|Hy|Hy];
    destruct (Z.compare_spec (Date.month a) (Date.month b)) as [Hm|Hm|Hm];
    destruct (Z.compare_spec (Date.day a) (Date.day b)) as [Hd|Hd|Hd];
    repeat match goal with
    | |- context [?x <? ?y] => destruct (Z.ltb_spec x y); try lia
    | |- context [?x =? ?y] => destruct (Z.eqb_spec x y); try lia
    end; reflexivity.
Qed.

(** A form that passes the date check spans at least one day. *)
Lemma accepted_days_positive f :
  Date.valid (f_start f) = true → Date.valid (f_end f) = true →
  Date.ltb (f_end f) (f_start f) = false →
  1 ≤ Date.sub_days (f_end f) (f_start f) + 1.
Proof.
  intros Hs He. rewrite ltb_toordinal by done.
  intros Hlt%Z.ltb_ge. unfold Date.sub_days. lia.
Qed.

(** ** Enumeration values *)

Lemma LeaveType_value_inj t1 t2 :
  LeaveType_value t1 = LeaveType_value t2 → t1 = t2.
Proof. destruct t1, t2; intros H; try reflexivity; discriminate H. Qed.

Lemma tipo_eqb t1 t2 :
  String.eqb (LeaveType_value t1) (LeaveType_value t2) = bool_decide (t1 = t2).
Proof.
  destruct (String.eqb_spec (LeaveType_value t1) (LeaveType_value t2)) as [E|E].
  - apply LeaveType_value_inj in E. by rewrite bool_decide_eq_true_2.
  - rewrite bool_decide_eq_false_2; [done|]. by intros ->.
Qed.

(** ** Snapshot round trip *)

Lemma Personnel_kwargs_asdict p :
  Personnel_kwargs (asdict_Personnel p) = Built p.
Proof. by destruct p. Qed.

Lemma LeaveRecord_kwargs_asdict l :
  LeaveRecord_kwargs (asdict_LeaveRecord l) = Built l.
Proof. by destruct l. Qed.

Lemma comprehension_map {A} (f : pyval → built A) (g : A → pyval) xs :
  (∀ x, f (g x) = Built x) → comprehension f (map g xs) = Built xs.
Proof.
  intros Hfg. induction xs as [|x xs IH]; [done|].
  simpl. by rewrite Hfg, IH.
Qed.

Lemma load_save st : load_state (save_state st) = Built st.
Proof.
  destruct st as [ps ls]. unfold load_state, save_state, comprehension_over.
  simpl.
  rewrite (comprehension_map _ _ ps Personnel_kwargs_asdict).
  by rewrite (comprehension_map _ _ ls LeaveRecord_kwargs_asdict).
Qed.

(** ** The lookup and the in-place update *)

Lemma find_person_ref_Some st pid i p :
  find_person_ref st pid = Some (i, p) →
  personnel st !! i = Some p ∧ Personnel.id p = pid.
Proof.
  unfold find_person_ref. intros (Hi & Hid & _)%list_find_Some. done.
Qed.

Lemma find_person_by_id_Some st pid p :
  find_person_by_id st pid = Some p ↔ ∃ i, find_person_ref st pid = Some (i, p).
Proof.
  unfold find_person_by_id. split.
  - intros ([i q] & Hf & ->)%fmap_Some. by exists i.
  - intros [i Hf]. by rewrite Hf.
Qed.

Lemma find_person_by_id_None st pid :
  find_person_by_id st pid = None ↔ find_person_ref st pid = None.
Proof. unfold find_person_by_id. apply fmap_None. Qed.

Lemma find_person_by_id_absent st pid :
  find_person_by_id st pid = None ↔
  ∀ p, p ∈ personnel st → Personnel.id p ≠ pid.
Proof.
  rewrite find_person_by_id_None. unfold find_person_ref.
  rewrite list_find_None, Forall_forall. done.
Qed.

Lemma find_person_ref_update st pid i p p' ls :
  find_person_ref st pid = Some (i, p) →
  Personnel.id p' = pid →
  find_person_ref (mkAppState (<[i := p']> (personnel st)) ls) pid = Some (i, p').
Proof.
  unfold find_person_ref. intros (Hi & Hid & Hfirst)%list_find_Some Hid'. simpl.
  apply list_find_insert_Some. right; left.
  split_and!; [done | done | by eapply lookup_lt_Some | done | done].
Qed.

Lemma adjust_balances_tipo t days p :
  adjust_balances (LeaveType_value t) days p =
  match t with
  | FERIAS =>
      Personnel.set_saldoFerias (Z.max 0 (Personnel.saldoFerias p - days)) p
  | ABONO =>
      Personnel.set_saldoAbono (Z.max 0 (Personnel.saldoAbono p - days)) p
  | _ => p
  end.
Proof. by destruct t. Qed.

Lemma adjust_balances_id tipo days p :
  Personnel.id (adjust_balances tipo days p) = Personnel.id p.
Proof. unfold adjust_balances. by repeat case_match. Qed.

(** ** What a submission of the leave form does *)

Lemma logLeave_success_inv w pid enviar f now msg w' :
  logLeave w pid enviar f now = (StSuccess msg, w') →
  ∃ i person,
    find_person_ref (state w) pid = Some (i, person)
    ∧ Date.ltb (f_end f) (f_start f) = false
    ∧ personnel (state w') =
        <[i := adjust_balances (LeaveType_value (f_tipo f))
                 (Date.sub_days (f_end f) (f_start f) + 1) person]>
          (personnel (state w))
    ∧ leaves (state w') =
        (leaves (state w) ++
         [LeaveRecord.mk (generate_id "L" (leaves (state w))) pid
            (LeaveType_value (f_tipo f)) (Date.isoformat (f_start f))
            (Date.isoformat (f_end f)) (f_desc f) now])%list
    ∧ data_file w' = save_state (state w').
Proof.
  unfold logLeave.
  destruct (find_person_ref (state w) pid) as [[i person]|] eqn:Hfind; [|done].
  destruct enviar; [|done].
  destruct (Date.ltb (f_end f) (f_start f)) eqn:Hlt; [done|].
  intros [= <- <-]. exists i, person.
  apply find_person_ref_Some in Hfind as Hp. destruct Hp as [_ Hid].
  simpl. rewrite Hid. done.
Qed.

Lemma logLeave_cases w pid enviar f now :
  (logLeave w pid enviar f now).2 = w
  ∨ ∃ msg, (logLeave w pid enviar f now).1 = StSuccess msg.
Proof.
  unfold logLeave.
  destruct (find_person_ref (state w) pid) as [[i person]|]; [|by left].
  destruct enviar; [|by left].
  destruct (Date.ltb (f_end f) (f_start f)); [by left|]. right. by eexists.
Qed.

Lemma page_personnel_success_inv w submitted f msg w' :
  page_personnel w submitted f = (StSuccess msg, w') →
  is_empty (f_nome f) = false ∧ is_empty (f_matr f) = false
  ∧ personnel (state w') =
      (personnel (state w) ++
       [Personnel.mk (generate_id "P" (personnel (state w)))
          (f_ant f) (Rank_value (f_grad f)) (f_quadro f) (f_nome f) (f_matr f)
          (f_unid f) (f_secao f) (f_situacao f) (f_esc f)
          (f_saldo_ferias f) (f_saldo_abono f) (UserRole_value (f_role f))])%list
  ∧ leaves (state w') = leaves (state w)
  ∧ data_file w' = save_state (state w').
Proof.
  unfold page_personnel. destruct submitted; [|done].
  destruct (is_empty (f_nome f)); [done|].
  destruct (is_empty (f_matr f)); [done|]. by intros [= <- <-].
Qed.

Lemma page_personnel_cases w submitted f :
  (page_personnel w submitted f).2 = w
  ∨ ∃ msg, (page_personnel w submitted f).1 = StSuccess msg.
Proof.
  unfold page_personnel. destruct submitted; [|by left].
  destruct (is_empty (f_nome f) || is_empty (f_matr f)); [by left|].
  right. by eexists.
Qed.

(** ** The select box offers existing persons only *)

Lemma options_values (Q : string → Prop) (l : list Personnel.t)
    (m : gmap string string) :
  (∀ label pid, m !! label = Some pid → Q pid) →
  (∀ p, p ∈ l → Q (Personnel.id p)) →
  ∀ label pid,
    foldl (λ m p, <[person_label p := Personnel.id p]> m) m l !! label = Some pid →
    Q pid.
Proof.
  revert m. induction l as [|p l IH]; intros m Hm Hl label pid; simpl.
  - apply Hm.
  - apply IH.
    + intros label' pid'. rewrite lookup_insert.
      case_decide; [|by apply Hm]. intros [= <-]. apply Hl. left.
    + intros q Hq. apply Hl. by right.
Qed.

Lemma options_member st label pid :
  options st !! label = Some pid →
  ∃ p, p ∈ personnel st ∧ Personnel.id p = pid.
Proof.
  unfold options.
  apply (options_values (λ pid, ∃ p, p ∈ personnel st ∧ Personnel.id p = pid)).
  - intros ??. by rewrite lookup_empty.
  - intros p Hp. by exists p.
Qed.

Lemma options_resolve st label pid :
  options st !! label = Some pid → is_Some (find_person_by_id st pid).
Proof.
  intros (p & Hp & Hid)%options_member.
  unfold find_person_by_id, find_person_ref.
  destruct (list_find_elem_of (λ q, Personnel.id q = pid) (personnel st) p Hp Hid)
    as [[i q] Hq].
  rewrite Hq. by eexists.
Qed.

Lemma page_leaves_empty w label enviar f now :
  personnel (state w) = [] →
  page_leaves w label enviar f now =
  (StWarning "Primeiro cadastre ao menos um militar na aba 'Efetivo'.", w).
Proof. unfold page_leaves. by intros ->. Qed.

Lemma page_leaves_cases w label enviar f now :
  (page_leaves w label enviar f now).2 = w
  ∨ ∃ selected_id,
      options (state w) !! label = Some selected_id
      ∧ page_leaves w label enviar f now = logLeave w selected_id enviar f now.
Proof.
  unfold page_leaves. destruct (personnel (state w)); [by left|].
  destruct (options (state w) !! label) as [pid|]; [|by left].
  right. by exists pid.
Qed.

(** The page never dereferences a missing person: whatever label is chosen,
    the outcome is not the [AttributeError] of line 281. *)
Lemma page_leaves_resolves w label enviar f now :
  (page_leaves w label enviar f now).1 ≠ Raised AttributeError.
Proof.
  unfold page_leaves. destruct (personnel (state w)); [done|].
  destruct (options (state w) !! label) as [pid|] eqn:Hopt; [|done].
  apply options_resolve in Hopt as [p Hp].
  apply find_person_by_id_Some in Hp as [i Hp].
  unfold logLeave. rewrite Hp. by repeat case_match.
Qed.

(** ** Claims about the leave form *)

(** C1. A successful logLeave debits the owner of the new record: with
    [days = (end - start).days + 1], a FÉRIAS leave sets the owner's
    [saldoFerias] to [max 0 (saldoFerias - days)], an ABONO leave sets the
    owner's [saldoAbono] to [max 0 (saldoAbono - days)], and every other
    leave type leaves both balances as they were.  The owner is the person
    [find_person_by_id] returns for the identifier, before and after. *)
Theorem logLeave_debits_owner w pid enviar f now msg w' :
  logLeave w pid enviar f now = (StSuccess msg, w') →
  let days := Date.sub_days (f_end f) (f_start f) + 1 in
  ∃ before after logged,
    find_person_by_id (state w) pid = Some before
    ∧ find_person_by_id (state w') pid = Some after
    ∧ leaves (state w') = (leaves (state w) ++ [logged])%list
    ∧ LeaveRecord.personnel_id logged = Personnel.id before
    ∧ LeaveRecord.type logged = LeaveType_value (f_tipo f)
    ∧ (f_tipo f = FERIAS →
       Personnel.saldoFerias after = Z.max 0 (Personnel.saldoFerias before - days))
    ∧ (f_tipo f = ABONO →
       Personnel.saldoAbono after = Z.max 0 (Personnel.saldoAbono before - days))
    ∧ (f_tipo f ≠ FERIAS → f_tipo f ≠ ABONO →
       Personnel.saldoFerias after = Personnel.saldoFerias before
       ∧ Personnel.saldoAbono after = Personnel.saldoAbono before).
Proof.
  intros (i & before & Hfind & _ & Hps & Hls & _)%logLeave_success_inv days.
  fold days in Hps.
  set (after := adjust_balances (LeaveType_value (f_tipo f)) days before) in *.
  destruct (find_person_ref_Some _ _ _ _ Hfind) as [_ Hid].
  eexists before, after, _. split_and!.
  - apply find_person_by_id_Some. by exists i.
  - apply find_person_by_id_Some. exists i.
    destruct (state w') as [ps' ls']. simpl in Hps. rewrite Hps.
    apply (find_person_ref_update _ _ _ before); [done|].
    unfold after. by rewrite adjust_balances_id.
  - exact Hls.
  - done.
  - done.
  - intros Ht. unfold after. rewrite adjust_balances_tipo, Ht. done.
  - intros Ht. unfold after. rewrite adjust_balances_tipo, Ht. done.
  - intros Hf Ha. unfold after. rewrite adjust_balances_tipo.
    by destruct (f_tipo f).
Qed.

Lemma logLeave_debits_owner_witness :
  logLeave w_maria "P1" true ferias_jan "2024-01-01T09:00:00"
  = (StSuccess "Afastamento lançado com sucesso!", w_ferias)
  ∧ ∃ after,
      find_person_by_id (state w_ferias) "P1" = Some after
      ∧ Personnel.saldoFerias after = 20.
Proof.
  assert (logLeave w_maria "P1" true ferias_jan "2024-01-01T09:00:00"
          = (StSuccess "Afastamento lançado com sucesso!", w_ferias)) as Hrun
    by (vm_compute; reflexivity).
  split; [exact Hrun|].
  destruct (logLeave_debits_owner _ _ _ _ _ _ _ Hrun)
    as (before & after & logged & Hb & Ha & _ & _ & _ & Hf & _).
  exists after. split; [exact Ha|].
  rewrite (Hf eq_refl).
  vm_compute in Hb. injection Hb as <-. reflexivity.
Defined.




(** C3. When the end date is before the start date, a submission of the
    leave form is refused: the world after it (leave collection, every
    person and balance, the file) is the world before it, the submission
    does not succeed, and, the selected person being found, what the user
    gets is the error message about the dates.  The same holds for the whole
    page, whatever label is selected. *)
Theorem logLeave_end_before_start w pid f now :
  Date.ltb (f_end f) (f_start f) = true →
  (logLeave w pid true f now).2 = w
  ∧ (∀ msg, (logLeave w pid true f now).1 ≠ StSuccess msg)
  ∧ (∀ p, find_person_by_id (state w) pid = Some p →
          (logLeave w pid true f now).1
          = StError "Data de término não pode ser anterior à data de início.")
  ∧ ∀ label, (page_leaves w label true f now).2 = w.
Proof.
  intros Hlt.
  assert (∀ pid', (logLeave w pid' true f now).2 = w) as Hsame.
  { intros pid'. unfold logLeave.
    destruct (find_person_ref (state w) pid') as [[i person]|]; [|done].
    by rewrite Hlt. }
  split_and!.
  - apply Hsame.
  - intros msg. unfold logLeave.
    destruct (find_person_ref (state w) pid) as [[i person]|]; [|done].
    by rewrite Hlt.
  - intros p [i Hp]%find_person_by_id_Some. unfold logLeave.
    by rewrite Hp, Hlt.
  - intros label.
    destruct (page_leaves_cases w label true f now) as [H|(sid & _ & ->)];
      [done | apply Hsame].
Qed.

Lemma logLeave_end_before_start_witness :
  Date.ltb (f_end reversed_range) (f_start reversed_range) = true
  ∧ logLeave w_ferias "P1" true reversed_range "2024-01-03T09:00:00"
    = (StError "Data de término não pode ser anterior à data de início.",
       w_ferias).
Proof.
  assert (Date.ltb (f_end reversed_range) (f_start reversed_range) = true)
    as Hlt by reflexivity.
  split; [exact Hlt|].
  destruct (logLeave_end_before_start w_ferias "P1" reversed_range
              "2024-01-03T09:00:00" Hlt) as (Hw & _ & Herr & _).
  apply injective_projections; [|exact Hw].
  eapply Herr. vm_compute. reflexivity.
Defined.

(** C10. Frame of a successful submission.  A leave submission keeps the
    length of the personnel collection and every entry but the one of the
    person found; that entry keeps all its fields except the two balances,
    keeps [saldoFerias] unless the type is FÉRIAS and keeps [saldoAbono]
    unless the type is ABONO.  A personnel submission keeps the leave
    collection and appends one entry after the existing persons, which stay
    as they are. *)
Theorem submit_frame w s msg w' :
  submit w s = (StSuccess msg, w') →
  match s with
  | SubmitLeave pid f now =>
      ∃ i before after,
        find_person_ref (state w) pid = Some (i, before)
        ∧ personnel (state w') !! i = Some after
        ∧ length (personnel (state w')) = length (personnel (state w))
        ∧ (∀ j, j ≠ i → personnel (state w') !! j = personnel (state w) !! j)
        ∧ same_but_balances before after
        ∧ (f_tipo f ≠ FERIAS →
           Personnel.saldoFerias after = Personnel.saldoFerias before)
        ∧ (f_tipo f ≠ ABONO →
           Personnel.saldoAbono after = Personnel.saldoAbono before)
  | SubmitPersonnel f =>
      leaves (state w') = leaves (state w)
      ∧ (∃ new, personnel (state w') = (personnel (state w) ++ [new])%list)
      ∧ ∀ j p, personnel (state w) !! j = Some p →
               personnel (state w') !! j = Some p
  end.
Proof.
  destruct s as [f|pid f now]; unfold submit.
  - intros (_ & _ & Hps & Hls & _)%page_personnel_success_inv.
    split_and!; [done | by eexists |].
    intros j p Hj. rewrite Hps. by apply lookup_app_l_Some.
  - intros (i & before & Hfind & _ & Hps & _ & _)%logLeave_success_inv.
    destruct (find_person_ref_Some _ _ _ _ Hfind) as [Hi _].
    eexists i, before, _. rewrite Hps. split_and!.
    + done.
    + apply list_lookup_insert_eq. by eapply lookup_lt_Some.
    + apply length_insert.
    + intros j Hj. by apply list_lookup_insert_ne.
    + rewrite adjust_balances_tipo. by destruct (f_tipo f).
    + intros Ht. rewrite adjust_balances_tipo. by destruct (f_tipo f).
    + intros Ht. rewrite adjust_balances_tipo. by destruct (f_tipo f).
Qed.

Lemma submit_frame_witness :
  submit w_maria (SubmitLeave "P1" ferias_jan "2024-01-01T09:00:00")
  = (StSuccess "Afastamento lançado com sucesso!", w_ferias)
  ∧ ∃ after,
      personnel (state w_ferias) !! 0%nat = Some after
      ∧ Personnel.saldoAbono after = 5.
Proof.
  assert (submit w_maria (SubmitLeave "P1" ferias_jan "2024-01-01T09:00:00")
          = (StSuccess "Afastamento lançado com sucesso!", w_ferias)) as Hrun
    by (vm_compute; reflexivity).
  split; [exact Hrun|].
  destruct (submit_frame _ _ _ _ Hrun)
    as (i & before & after & Hfind & Hafter & _ & _ & _ & _ & Hab).
  vm_compute in Hfind. injection Hfind as <- <-.
  exists after. split; [exact Hafter|].
  rewrite Hab; [reflexivity | discriminate].
Defined.

(** ** Sessions and reachable worlds *)

Lemma start_session_Some d w :
  start_session d = Some w ↔ load_state d = Built (state w) ∧ data_file w = d.
Proof.
  unfold start_session. destruct w as [st df]; simpl.
  destruct (load_state d) as [st'| |e].
  - split; [by intros [= -> ->] | by intros [[= ->] ->]].
  - split; [done | by intros [? _]].
  - split; [done | by intros [? _]].
Qed.

(** In a reachable world the file, when loaded, gives the state of the
    session: a new session finds the state the last one left. *)
Lemma reachable_sync d0 w :
  reachable d0 w → load_state (data_file w) = Built (state w).
Proof.
  induction 1 as [w Hs|w sub f Hr IH Hok|w pid env f now Hr IH|w w' Hr IH Hs].
  - by apply start_session_Some in Hs as [H <-].
  - destruct (page_personnel_cases w sub f) as [->|[msg Hm]]; [done|].
    destruct (page_personnel w sub f) as [o w'] eqn:E. simpl in *. subst o.
    apply page_personnel_success_inv in E as (_ & _ & _ & _ & ->).
    apply load_save.
  - destruct (logLeave_cases w pid env f now) as [->|[msg Hm]]; [done|].
    destruct (logLeave w pid env f now) as [o w'] eqn:E. simpl in *. subst o.
    apply logLeave_success_inv in E as (_ & _ & _ & _ & _ & _ & ->).
    apply load_save.
  - apply start_session_Some in Hs as [H ->]. done.
Qed.

Lemma reachable_session_same d0 w w' :
  reachable d0 w → start_session (data_file w) = Some w' → w' = w.
Proof.
  intros Hsync%reachable_sync [Hload Hfile]%start_session_Some.
  rewrite Hsync in Hload. injection Hload as Hst.
  destruct w, w'; simpl in *; congruence.
Qed.

Lemma reachable_page_leaves d0 w label enviar f now :
  reachable d0 w → reachable d0 (page_leaves w label enviar f now).2.
Proof.
  intros Hr.
  destruct (page_leaves_cases w label enviar f now) as [->|(sid & _ & ->)];
    [done | by constructor].
Qed.

Section Invariant.
Variable d0 : option pyval.
Variable P : AppState → Prop.
Hypothesis P_start : ∀ st, load_state d0 = Built st → P st.
Hypothesis P_personnel :
  ∀ w submitted f msg w',
    P (state w) → number_inputs_ok f →
    page_personnel w submitted f = (StSuccess msg, w') → P (state w').
Hypothesis P_leave :
  ∀ w pid enviar f now msg w',
    P (state w) →
    logLeave w pid enviar f now = (StSuccess msg, w') → P (state w').

Lemma reachable_invariant w : reachable d0 w → P (state w).
Proof.
  induction 1 as [w Hs|w sub f Hr IH Hok|w pid env f now Hr IH|w w' Hr IH Hs].
  - apply P_start. by apply start_session_Some in Hs as [H _].
  - destruct (page_personnel_cases w sub f) as [->|[msg Hm]]; [done|].
    destruct (page_personnel w sub f) as [o w'] eqn:E. simpl in *. subst o.
    by eapply P_personnel.
  - destruct (logLeave_cases w pid env f now) as [->|[msg Hm]]; [done|].
    destruct (logLeave w pid env f now) as [o w'] eqn:E. simpl in *. subst o.
    by eapply P_leave.
  - by rewrite (reachable_session_same d0 w w').
Qed.
End Invariant.

(** ** Identifiers *)

Lemma positional_snoc {A} prefix (ident : A → string) l x :
  positional prefix ident l →
  ident x = generate_id prefix l →
  positional prefix ident (l ++ [x]).
Proof.
  intros Hl Hx i y [Hi|[Hi Hy]]%lookup_app_Some.
  - by apply Hl.
  - apply list_lookup_singleton_Some in Hy as [Hi0 <-].
    rewrite Hx. unfold generate_id. do 2 f_equal. lia.
Qed.

Lemma positional_insert {A} prefix (ident : A → string) l i x y :
  positional prefix ident l →
  l !! i = Some x → ident y = ident x →
  positional prefix ident (<[i := y]> l).
Proof.
  intros Hl Hi Hid j z [(-> & <- & _)|[_ Hj]]%list_lookup_insert_Some.
  - rewrite Hid. by apply Hl.
  - by apply Hl.
Qed.

Lemma positional_NoDup {A} prefix (ident : A → string) l :
  positional prefix ident l → NoDup (ident <$> l).
Proof.
  intros Hl. apply NoDup_alt. intros i j s.
  rewrite !list_lookup_fmap.
  intros (x & Hx & ->)%fmap_Some (y & Hy & Hxy)%fmap_Some.
  rewrite (Hl _ _ Hx), (Hl _ _ Hy) in Hxy.
  apply (inj (String.app prefix)), (inj pretty) in Hxy. lia.
Qed.

Lemma ids_positional_reachable w :
  reachable None w → ids_positional (state w).
Proof.
  apply reachable_invariant.
  - intros st [= <-]. split; intros i x; simpl; by rewrite lookup_nil.
  - intros w0 sub f msg w' [Hp Hl] _
      (_ & _ & Hps & Hls & _)%page_personnel_success_inv.
    split; [|by rewrite Hls]. rewrite Hps. by apply positional_snoc.
  - intros w0 pid env f now msg w' [Hp Hl]
      (i & person & Hfind & _ & Hps & Hls & _)%logLeave_success_inv.
    destruct (find_person_ref_Some _ _ _ _ Hfind) as [Hi _].
    split.
    + rewrite Hps. eapply positional_insert; [done | done |].
      apply adjust_balances_id.
    + rewrite Hls. by apply positional_snoc.
Qed.

(** C5. From a fresh start (no file), whatever forms are submitted and
    sessions opened: the [n]-th person of the collection, which is the
    [n]-th registered, has identifier "P" followed by [n], the [n]-th
    leave record has identifier "L" followed by [n], and no identifier
    occurs twice.  A further successful submission appends one entity
    whose identifier is made from the size of its collection at that
    time. *)
Theorem ids_follow_order w :
  reachable None w →
  ids_positional (state w)
  ∧ NoDup (Personnel.id <$> personnel (state w))
  ∧ NoDup (LeaveRecord.id <$> leaves (state w))
  ∧ ∀ s msg w',
      submit w s = (StSuccess msg, w') →
      match s with
      | SubmitPersonnel _ =>
          ∃ new,
            personnel (state w') = (personnel (state w) ++ [new])%list
            ∧ Personnel.id new
              = "P" +:+ pretty (Z.of_nat (length (personnel (state w))) + 1)
      | SubmitLeave _ _ _ =>
          ∃ new,
            leaves (state w') = (leaves (state w) ++ [new])%list
            ∧ LeaveRecord.id new
              = "L" +:+ pretty (Z.of_nat (length (leaves (state w))) + 1)
      end.
Proof.
  intros [Hp Hl]%ids_positional_reachable. split_and!.
  - done.
  - by eapply positional_NoDup.
  - by eapply positional_NoDup.
  - intros [f|pid f now] msg w'; unfold submit.
    + intros (_ & _ & Hps & _)%page_personnel_success_inv. by eexists.
    + intros (i & person & _ & _ & _ & Hls & _)%logLeave_success_inv.
      by eexists.
Qed.

Lemma ids_follow_order_witness :
  reachable None w_twice
  ∧ Personnel.id <$> personnel (state w_twice) = ["P1"]
  ∧ LeaveRecord.id <$> leaves (state w_twice) = ["L1"; "L2"]
  ∧ NoDup (LeaveRecord.id <$> leaves (state w_twice)).
Proof.
  assert (reachable None w_twice) as Hr.
  { do 2 apply reach_leave. apply reach_personnel.
    - by apply reach_start.
    - unfold number_inputs_ok; simpl; lia. }
  split; [exact Hr|].
  destruct (ids_follow_order w_twice Hr) as (_ & _ & Hnd & _).
  split_and!; [by vm_compute | by vm_compute | exact Hnd].
Defined.

Lemma w_twice_reachable : reachable None w_twice.
Proof.
  do 2 apply reach_leave. apply reach_personnel.
  - by apply reach_start.
  - unfold number_inputs_ok; simpl; lia.
Qed.

(** ** Balances *)

Lemma adjust_balances_nonneg tipo days p :
  0 ≤ Personnel.saldoFerias p ∧ 0 ≤ Personnel.saldoAbono p →
  0 ≤ Personnel.saldoFerias (adjust_balances tipo days p)
  ∧ 0 ≤ Personnel.saldoAbono (adjust_balances tipo days p).
Proof. unfold adjust_balances. repeat case_match; simpl; lia. Qed.

(** C9 (as the code has it).  When the program starts without a file, or
    with a file in which no balance is negative, no reachable state holds a
    negative balance: the number inputs of the personnel form are bounded
    below by 0, the leave form clamps at 0, and a new session finds the
    state the last one saved. *)
Theorem balances_stay_nonneg d0 w :
  (∀ st0, load_state d0 = Built st0 → balances_nonneg st0) →
  reachable d0 w → balances_nonneg (state w).
Proof.
  intros Hstart. apply reachable_invariant.
  - exact Hstart.
  - intros w0 sub f msg w' Hw (_ & Hf & Ha)
      (_ & _ & Hps & _)%page_personnel_success_inv.
    unfold balances_nonneg. rewrite Hps. apply Forall_app. split; [done|].
    by repeat constructor.
  - intros w0 pid env f now msg w' Hw
      (i & person & Hfind & _ & Hps & _)%logLeave_success_inv.
    destruct (find_person_ref_Some _ _ _ _ Hfind) as [Hi _].
    unfold balances_nonneg. rewrite Hps. apply Forall_insert; [done|].
    apply adjust_balances_nonneg.
    by apply (proj1 (Forall_lookup _ _) Hw i).
Qed.

Lemma balances_stay_nonneg_witness :
  (∀ st0, load_state None = Built st0 → balances_nonneg st0)
  ∧ reachable None w_twice
  ∧ balances_nonneg (state w_twice).
Proof.
  assert (∀ st0, load_state None = Built st0 → balances_nonneg st0) as Hstart.
  { intros st0 [= <-]. constructor. }
  split_and!; [exact Hstart | exact w_twice_reachable |].
  exact (balances_stay_nonneg None w_twice Hstart w_twice_reachable).
Defined.

(** C9, the claim as stated, fails: [load_state] takes the balances as the
    file has them, so a session that starts on a file with a negative
    balance is in a state with a negative balance. *)
Lemma load_keeps_negative_balance :
  reachable (Some doc_negative)
    (mkWorld (mkAppState [p_negative] []) (Some doc_negative))
  ∧ ¬ balances_nonneg (mkAppState [p_negative] []).
Proof.
  split.
  - apply reach_start. by vm_compute.
  - intros H. apply Forall_inv in H. simpl in H. lia.
Qed.

(** ** Persistence *)

(** C6. Saving a state and loading the file gives back the same state:
    every person and every leave record with all its fields, both
    collections in their order; a session started on the saved file is in
    that state. *)
Theorem snapshot_round_trip st :
  load_state (save_state st) = Built st
  ∧ start_session (save_state st) = Some (mkWorld st (save_state st)).
Proof.
  split; [apply load_save|]. unfold start_session. by rewrite load_save.
Qed.

Lemma comprehension_raised {A} (f : pyval → built A) xs e :
  comprehension f xs = BuildRaised e → ∃ x, x ∈ xs ∧ f x = BuildRaised e.
Proof.
  induction xs as [|x xs IH]; [done|]. simpl.
  destruct (f x) as [a| |e'] eqn:Hx.
  - destruct (comprehension f xs) as [l| |e'']; try done.
    intros [= ->]. destruct IH as (y & Hy & Hfy); [done|].
    exists y. split; [by right | done].
  - destruct (comprehension f xs) as [l| |e'']; try done.
    intros [= ->]. destruct IH as (y & Hy & Hfy); [done|].
    exists y. split; [by right | done].
  - intros [= ->]. exists x. split; [left | done].
Qed.

Lemma comprehension_over_raised {A} (f : pyval → built A) v e :
  (∀ x e', f x = BuildRaised e' → e' = TypeError) →
  comprehension_over f v = BuildRaised e → e = TypeError.
Proof.
  intros Hf. unfold comprehension_over.
  destruct v; simpl; try (by intros [= <-]);
    by intros (x & _ & Hx%Hf)%comprehension_raised.
Qed.

Lemma Personnel_kwargs_raised v e :
  Personnel_kwargs v = BuildRaised e → e = TypeError.
Proof.
  unfold Personnel_kwargs. destruct v; try (by intros [= <-]).
  repeat case_match; by intros [= <-].
Qed.

Lemma LeaveRecord_kwargs_raised v e :
  LeaveRecord_kwargs v = BuildRaised e → e = TypeError.
Proof.
  unfold LeaveRecord_kwargs. destruct v; try (by intros [= <-]).
  repeat case_match; by intros [= <-].
Qed.



(** ** Construction and validation *)



Lemma is_value_of_value {E} (value : E → string) (all : list E) e :
  e ∈ all → is_value_of value all (value e) = true.
Proof.
  intros He. unfold is_value_of. apply existsb_exists. exists e.
  split; [by apply list_elem_of_In | apply String.eqb_refl].
Qed.

(** Where the rules are enforced: in the forms.  The entity a successful
    submission appends has its enumerated fields inside the enumerations,
    and a leave record is only built when the end is not before the
    start. *)
Lemma forms_validate w s msg w' :
  submit w s = (StSuccess msg, w') →
  match s with
  | SubmitLeave pid f now =>
      Date.ltb (f_end f) (f_start f) = false
      ∧ ∃ l, last (leaves (state w')) = Some l
             ∧ LeaveRecord.startDate l = Date.isoformat (f_start f)
             ∧ LeaveRecord.endDate l = Date.isoformat (f_end f)
             ∧ is_value_of LeaveType_value all_LeaveType (LeaveRecord.type l) = true
  | SubmitPersonnel f =>
      ∃ p, last (personnel (state w')) = Some p
           ∧ is_value_of Rank_value all_Rank (Personnel.grad p) = true
           ∧ is_value_of UserRole_value all_UserRole (Personnel.role p) = true
  end.
Proof.
  destruct s as [f|pid f now]; unfold submit.
  - intros (_ & _ & Hps & _)%page_personnel_success_inv.
    eexists. rewrite Hps, last_snoc. split_and!; [done| |]; simpl.
    + by destruct (f_grad f).
    + by destruct (f_role f).
  - intros (i & person & _ & Hlt & _ & Hls & _)%logLeave_success_inv.
    split; [done|]. eexists. rewrite Hls, last_snoc.
    split_and!; [done..|]; simpl. by destruct (f_tipo f).
Qed.

(** ** The dashboard counter *)

Lemma em_ferias_filter st hoje :
  em_ferias st hoje
  = Z.of_nat (length (filter (λ l, on_vacation hoje l = true) (leaves st))).
Proof.
  unfold em_ferias.
  cut (∀ ls n,
         foldl (λ n l, if on_vacation hoje l then n + 1 else n) n ls
         = n + Z.of_nat (length (filter (λ l, on_vacation hoje l = true) ls))).
  { intros H. by rewrite H. }
  induction ls as [|l ls IH]; intros n; simpl; [lia|].
  rewrite IH, filter_cons.
  destruct (on_vacation hoje l) eqn:Hl.
  - rewrite decide_True by done. simpl. lia.
  - rewrite decide_False by done. done.
Qed.

(** Only FÉRIAS records whose range holds the day are counted. *)
Lemma on_vacation_spec hoje l :
  on_vacation hoje l = true ↔
  LeaveRecord.type l = LeaveType_value FERIAS
  ∧ String.leb (LeaveRecord.startDate l) hoje = true
  ∧ String.leb hoje (LeaveRecord.endDate l) = true.
Proof.
  unfold on_vacation. rewrite !andb_true_iff, String.eqb_eq. done.
Qed.

Lemma on_vacation_other_type hoje f st person now :
  f_tipo f ≠ FERIAS →
  on_vacation hoje
    (LeaveRecord.mk (generate_id "L" (leaves st)) (Personnel.id person)
       (LeaveType_value (f_tipo f)) (Date.isoformat (f_start f))
       (Date.isoformat (f_end f)) (f_desc f) now) = false.
Proof.
  intros Ht. unfold on_vacation. cbn [LeaveRecord.type]. rewrite tipo_eqb.
  by rewrite bool_decide_eq_false_2.
Qed.

(** The example of the specification: one FÉRIAS record and one RESTRIÇÃO
    record, both holding the day, count 1. *)
Example em_ferias_restricao :
  em_ferias
    (state (logLeave w_ferias "P1" true restricao_jan "2024-01-02T09:00:00").2)
    "2024-01-05" = 1.
Proof. by vm_compute. Qed.

(** For a record the leave form built, the text comparison of the
    dashboard is the inclusive range test on the dates. *)
Lemma on_vacation_dates today f st person now :
  Date.valid today = true →
  Date.valid (f_start f) = true → Date.valid (f_end f) = true →
  on_vacation (Date.isoformat today)
    (LeaveRecord.mk (generate_id "L" (leaves st)) (Personnel.id person)
       (LeaveType_value (f_tipo f)) (Date.isoformat (f_start f))
       (Date.isoformat (f_end f)) (f_desc f) now)
  = bool_decide (f_tipo f = FERIAS)
    && (negb (Date.ltb today (f_start f)) && negb (Date.ltb (f_end f) today)).
Proof.
  intros Ht Hs He. unfold on_vacation.
  cbn [LeaveRecord.type LeaveRecord.startDate LeaveRecord.endDate].
  by rewrite tipo_eqb, !isoformat_leb.
Qed.

(** Every leave record names a person of the collection: true of the
    worlds reached from a fresh start, where a record gets the identifier
    of the person found and no person is ever removed. *)
Lemma owners_exist_reachable w :
  reachable None w →
  ∀ l, l ∈ leaves (state w) →
       ∃ p, p ∈ personnel (state w) ∧ Personnel.id p = LeaveRecord.personnel_id l.
Proof.
  apply (reachable_invariant None
    (λ st, ∀ l, l ∈ leaves st →
                ∃ p, p ∈ personnel st ∧ Personnel.id p = LeaveRecord.personnel_id l)).
  - intros st [= <-] l Hl. by apply elem_of_nil in Hl.
  - intros w0 sub f msg w' Hw _
      (_ & _ & Hps & Hls & _)%page_personnel_success_inv l Hl.
    rewrite Hls in Hl. destruct (Hw l Hl) as (p & Hp & Hid).
    exists p. split; [|done]. rewrite Hps. apply elem_of_app. by left.
  - intros w0 pid env f now msg w' Hw
      (i & person & Hfind & _ & Hps & Hls & _)%logLeave_success_inv l Hl.
    destruct (find_person_ref_Some _ _ _ _ Hfind) as [Hi Hid].
    set (person' := adjust_balances _ _ person) in Hps.
    assert (person' ∈ personnel (state w')) as Hin.
    { rewrite Hps. apply list_elem_of_insert. by eapply lookup_lt_Some. }
    rewrite Hls in Hl. apply elem_of_app in Hl as [Hl|Hl%list_elem_of_singleton].
    + destruct (Hw l Hl) as (p & [j Hj]%list_elem_of_lookup & Hp).
      destruct (decide (j = i)) as [->|Hne].
      * exists person'. split; [done|].
        unfold person'. rewrite adjust_balances_id. congruence.
      * exists p. split; [|done]. rewrite Hps.
        apply list_elem_of_lookup. exists j. by rewrite list_lookup_insert_ne.
    + exists person'. split; [done|]. subst l. simpl.
      unfold person'. by rewrite adjust_balances_id.
Qed.

(** The counter is the number of persons on vacation exactly when no two
    counted records belong to the same person. *)
Lemma em_ferias_distinct_owners st hoje :
  NoDup (Personnel.id <$> personnel st) →
  (∀ l, l ∈ leaves st →
        ∃ p, p ∈ personnel st ∧ Personnel.id p = LeaveRecord.personnel_id l) →
  NoDup (LeaveRecord.personnel_id
           <$> filter (λ l, on_vacation hoje l = true) (leaves st)) →
  em_ferias st hoje = persons_on_vacation st hoje.
Proof.
  intros Hids Hown Hdistinct.
  rewrite em_ferias_filter. unfold persons_on_vacation. f_equal.
  set (counted := filter (λ l, on_vacation hoje l = true) (leaves st)) in *.
  set (owns := λ p : Personnel.t,
         existsb (λ l, on_vacation hoje l
                       && String.eqb (LeaveRecord.personnel_id l) (Personnel.id p))
                 (leaves st) = true).
  change (length counted = length (filter owns (personnel st))).
  rewrite <- (length_fmap LeaveRecord.personnel_id counted).
  rewrite <- (length_fmap Personnel.id (filter owns (personnel st))).
  apply Permutation_length, NoDup_Permutation; [done| |].
  - eapply sublist_NoDup; [exact Hids|].
    apply fmap_sublist, sublist_filter.
  - intros x. rewrite !list_elem_of_fmap. split.
    + intros (l & -> & [Hl Hin]%list_elem_of_filter).
      destruct (Hown l Hin) as (p & Hp & Hid).
      exists p. split; [done|]. apply list_elem_of_filter. split; [|done].
      unfold owns. apply existsb_exists. exists l.
      split; [by apply list_elem_of_In|].
      rewrite Hl, Hid. apply String.eqb_refl.
    + intros (p & -> & [Hp Hin]%list_elem_of_filter).
      unfold owns in Hp. apply existsb_exists in Hp as (l & Hl & Hb).
      apply andb_true_iff in Hb as [Hv Hid%String.eqb_eq].
      exists l. split; [done|]. apply list_elem_of_filter.
      split; [done | by apply list_elem_of_In].
Qed.

(** C4. The counter behind "Militares em férias hoje" counts leave
    records, not persons.  After two FÉRIAS records of the same person that
    both hold 2024-01-05 (a state the forms reach from a fresh start), it
    is 2, while one person of the collection is on vacation that day. *)
Theorem em_ferias_counts_records :
  reachable None w_twice
  ∧ length (personnel (state w_twice)) = 1%nat
  ∧ em_ferias (state w_twice) "2024-01-05" = 2
  ∧ persons_on_vacation (state w_twice) "2024-01-05" = 1
  ∧ page_dashboard (state w_twice) (Date.mk 2024 1 5) = (1, 2).
Proof.
  split; [exact w_twice_reachable|]. split_and!; by vm_compute.
Qed.

(** * Further properties *)

(** ** The order of strings *)

Lemma string_compare_refl s : String.compare s s = Eq.
Proof.
  induction s as [|c s IH]; [done|]. simpl.
  unfold Ascii.compare. by rewrite N.compare_refl.
Qed.

Lemma string_ltb_irrefl s : String.ltb s s = false.
Proof. unfold String.ltb. by rewrite string_compare_refl. Qed.

Lemma string_leb_refl s : String.leb s s = true.
Proof. unfold String.leb. by rewrite string_compare_refl. Qed.

Lemma string_ltb_leb s1 s2 : String.ltb s1 s2 = false → String.leb s2 s1 = true.
Proof.
  unfold String.ltb, String.leb. rewrite (String.compare_antisym s2 s1).
  by destruct (String.compare s1 s2).
Qed.

Lemma string_ltb_true_leb s1 s2 : String.ltb s1 s2 = true → String.leb s1 s2 = true.
Proof. unfold String.ltb, String.leb. by destruct (String.compare s1 s2). Qed.

Lemma string_leb_trans s1 s2 s3 :
  String.leb s1 s2 = true → String.leb s2 s3 = true → String.leb s1 s3 = true.
Proof.
  unfold String.leb. revert s2 s3.
  induction s1 as [|a s1 IH]; intros [|b s2] [|c s3]; simpl; try done.
  unfold Ascii.compare.
  destruct (N.compare_spec (N_of_ascii a) (N_of_ascii b)) as [Hab|Hab|Hab];
    destruct (N.compare_spec (N_of_ascii b) (N_of_ascii c)) as [Hbc|Hbc|Hbc];
    destruct (N.compare_spec (N_of_ascii a) (N_of_ascii c)) as [Hac|Hac|Hac];
    try done; try lia.
  apply IH.
Qed.

(** ** The sorted views *)

Section Sorted.
Context {A : Type} (key : A → string).

Lemma insert_desc_perm x l : insert_desc key x l ≡ₚ x :: l.
Proof.
  induction l as [|y l IH]; [done|]. simpl.
  destruct (String.ltb (key x) (key y)); [|done].
  rewrite IH. apply Permutation_swap.
Qed.

Lemma sorted_desc_perm l : sorted_desc key l ≡ₚ l.
Proof.
  induction l as [|x l IH]; [done|]. simpl.
  by rewrite insert_desc_perm, IH.
Qed.

Lemma insert_desc_sorted x l :
  StronglySorted (descending key) l → StronglySorted (descending key) (insert_desc key x l).
Proof.
  induction 1 as [|y l Hl IH Hy]; simpl.
  - by repeat constructor.
  - destruct (String.ltb (key x) (key y)) eqn:Hxy.
    + constructor; [done|].
      rewrite insert_desc_perm. constructor; [|done].
      by apply string_ltb_true_leb.
    + apply string_ltb_leb in Hxy.
      constructor; [by constructor|]. constructor; [done|].
      eapply Forall_impl; [exact Hy|]. intros z Hz.
      unfold descending in *. by eapply string_leb_trans.
Qed.

Lemma sorted_desc_sorted l : StronglySorted (descending key) (sorted_desc key l).
Proof.
  induction l as [|x l IH]; simpl; [constructor | by apply insert_desc_sorted].
Qed.

Lemma insert_desc_stable k x l :
  filter (λ y, key y = k) (insert_desc key x l)
  = filter (λ y, key y = k) (x :: l).
Proof.
  induction l as [|y l IH]; [done|]. simpl.
  destruct (String.ltb (key x) (key y)) eqn:Hxy; [|done].
  rewrite !filter_cons, IH, !filter_cons.
  destruct (decide (key y = k)) as [Hy|Hy], (decide (key x = k)) as [Hx|Hx];
    try done.
  rewrite Hx, Hy, string_ltb_irrefl in Hxy. done.
Qed.

Lemma sorted_desc_stable k l :
  filter (λ y, key y = k) (sorted_desc key l) = filter (λ y, key y = k) l.
Proof.
  induction l as [|x l IH]; [done|]. simpl.
  rewrite insert_desc_stable, !filter_cons, IH. done.
Qed.
End Sorted.

Lemma w_two_leaves_reachable : reachable None w_two_leaves.
Proof.
  apply reach_leave. apply reach_personnel.
  - apply reach_leave. apply reach_personnel.
    + by apply reach_start.
    + unfold number_inputs_ok; simpl; lia.
  - unfold number_inputs_ok; simpl; lia.
Qed.

(** ** Lookup *)

Lemma find_person_ref_unique st i p :
  NoDup (Personnel.id <$> personnel st) →
  personnel st !! i = Some p →
  find_person_ref st (Personnel.id p) = Some (i, p).
Proof.
  intros Hnd Hi. unfold find_person_ref. apply list_find_Some.
  split_and!; [done | done |].
  intros j q Hj Hlt Hid.
  assert (j = i); [|lia].
  eapply (NoDup_lookup _ _ _ _ Hnd); rewrite list_lookup_fmap.
  - by rewrite Hj.
  - by rewrite Hi, Hid.
Qed.

Lemma every_person_found_aux st :
  NoDup (Personnel.id <$> personnel st) →
  ∀ p, p ∈ personnel st → ∃ i, find_person_ref st (Personnel.id p) = Some (i, p).
Proof.
  intros Hnd p [i Hi]%list_elem_of_lookup. exists i.
  by apply find_person_ref_unique.
Qed.



(** X2. [generate_id] depends on the length of the collection only: two
    collections get the same identifier for a prefix exactly when they have
    the same number of elements. *)
Theorem generate_id_by_length {A B} (prefix : string) (l1 : list A) (l2 : list B) :
  generate_id prefix l1 = generate_id prefix l2 ↔ length l1 = length l2.
Proof.
  unfold generate_id. split.
  - intros H. apply (inj (String.app prefix)), (inj pretty) in H. lia.
  - by intros ->.
Qed.

(** ** Histories *)

(** X3. A successful leave submission appends the new record, whose
    identifier is generated from the leave collection, at the end of the
    history [get_leaves_for_person] gives for the selected identifier, and
    changes the history of no other identifier. *)
Theorem history_grows w pid enviar f now msg w' :
  logLeave w pid enviar f now = (StSuccess msg, w') →
  (∃ new,
     get_leaves_for_person (state w') pid
     = (get_leaves_for_person (state w) pid ++ [new])%list
     ∧ LeaveRecord.id new = generate_id "L" (leaves (state w))
     ∧ LeaveRecord.createdAt new = now)
  ∧ ∀ pid', pid' ≠ pid →
            get_leaves_for_person (state w') pid'
            = get_leaves_for_person (state w) pid'.
Proof.
  intros (i & person & _ & _ & _ & Hls & _)%logLeave_success_inv.
  unfold get_leaves_for_person. rewrite Hls. split.
  - eexists. rewrite filter_app, filter_cons. simpl.
    rewrite decide_True by done. done.
  - intros pid' Hne. rewrite filter_app, filter_cons. simpl.
    rewrite decide_False by done. by rewrite filter_nil, app_nil_r.
Qed.

Lemma history_grows_witness :
  logLeave w_two "P2" true abono_fev "2024-02-01T08:30:00"
  = (StSuccess "Afastamento lançado com sucesso!", w_two_leaves)
  ∧ get_leaves_for_person (state w_two_leaves) "P1"
    = get_leaves_for_person (state w_two) "P1".
Proof.
  assert (logLeave w_two "P2" true abono_fev "2024-02-01T08:30:00"
          = (StSuccess "Afastamento lançado com sucesso!", w_two_leaves)) as Hrun
    by (vm_compute; reflexivity).
  split; [exact Hrun|].
  apply (proj2 (history_grows _ _ _ _ _ _ _ Hrun)). discriminate.
Defined.

(** ** The personnel form *)

(** X4. The personnel form succeeds exactly when it is submitted with a
    name and a registration number that are both non-empty.  Otherwise the
    world (state and file) stays as it was, and a submission is answered
    with the error message. *)
Theorem page_personnel_required_fields w submitted f :
  ((∃ msg, (page_personnel w submitted f).1 = StSuccess msg)
   ↔ submitted = true ∧ f_nome f ≠ "" ∧ f_matr f ≠ "")
  ∧ ((∀ msg, (page_personnel w submitted f).1 ≠ StSuccess msg) →
     (page_personnel w submitted f).2 = w
     ∧ (submitted = true →
        (page_personnel w submitted f).1
        = StError "Nome e matrícula são obrigatórios.")).
Proof.
  unfold page_personnel.
  destruct submitted; [|split; [split; [by intros [? ?] | by intros [? _]] | done]].
  destruct (f_nome f) as [|c s]; simpl.
  { split; [split; [by intros [? ?] | by intros (_ & ? & _)] | done]. }
  destruct (f_matr f) as [|c' s']; simpl.
  { split; [split; [by intros [? ?] | by intros (_ & _ & ?)] | done]. }
  split; [split; [done | by eexists] |].
  intros H. by destruct (H _ eq_refl).
Qed.

(** ** Memory and file *)



Lemma adjust_balances_same tipo days p :
  same_but_balances p (adjust_balances tipo days p).
Proof. unfold adjust_balances. by repeat case_match. Qed.

Lemma same_but_balances_refl p : same_but_balances p p.
Proof. by repeat split. Qed.

(** X6. A submission of either form, whatever its outcome, only appends:
    the leave records it found stay in place and unchanged, and every
    person it found stays at the same position with the same fields, the
    two balances apart; in particular no identifier changes and nothing is
    removed or reordered. *)
Theorem submissions_only_append w s :
  leaves (state w) `prefix_of` leaves (state (submit w s).2)
  ∧ (Personnel.id <$> personnel (state w))
      `prefix_of` (Personnel.id <$> personnel (state (submit w s).2))
  ∧ ∀ j p, personnel (state w) !! j = Some p →
           ∃ p', personnel (state (submit w s).2) !! j = Some p'
                 ∧ same_but_balances p p'.
Proof.
  assert (∀ w0 : World,
            leaves (state w0) `prefix_of` leaves (state w0)
            ∧ (Personnel.id <$> personnel (state w0))
                `prefix_of` (Personnel.id <$> personnel (state w0))
            ∧ ∀ j p, personnel (state w0) !! j = Some p →
                     ∃ p', personnel (state w0) !! j = Some p'
                           ∧ same_but_balances p p') as Hsame.
  { intros w0. split_and!; [done | done |].
    intros j p Hj. exists p. split; [done | apply same_but_balances_refl]. }
  destruct s as [f|pid f now]; unfold submit.
  - destruct (page_personnel_cases w true f) as [->|[msg Hm]]; [apply Hsame|].
    destruct (page_personnel w true f) as [o w'] eqn:E. cbn [fst snd] in *.
    subst o.
    apply page_personnel_success_inv in E as (_ & _ & Hps & Hls & _).
    rewrite Hps, Hls, fmap_app. split_and!.
    + done.
    + by apply prefix_app_r.
    + intros j p Hj. exists p.
      split; [by apply lookup_app_l_Some | apply same_but_balances_refl].
  - destruct (logLeave_cases w pid true f now) as [->|[msg Hm]]; [apply Hsame|].
    destruct (logLeave w pid true f now) as [o w'] eqn:E. cbn [fst snd] in *.
    subst o.
    apply logLeave_success_inv in E as (i & person & Hfind & _ & Hps & Hls & _).
    destruct (find_person_ref_Some _ _ _ _ Hfind) as [Hi _].
    rewrite Hps, Hls. split_and!.
    + by apply prefix_app_r.
    + rewrite list_fmap_insert, adjust_balances_id, list_insert_id; [done|].
      by rewrite list_lookup_fmap, Hi.
    + intros j p Hj. destruct (decide (j = i)) as [->|Hne].
      * eexists. rewrite list_lookup_insert_eq by (by eapply lookup_lt_Some).
        split; [done|]. replace p with person by congruence.
        apply adjust_balances_same.
      * exists p. rewrite list_lookup_insert_ne by done.
        split; [done | apply same_but_balances_refl].
Qed.

(** ** Invariants of the worlds reached from a fresh start *)

(** X7. From a fresh start, every leave record names a person of the
    collection: the lookup of its owner succeeds, and the row the dashboard
    builds for it shows that person's name and rank, not the placeholder
    for a missing person. *)
Theorem owners_are_found w :
  reachable None w →
  ∀ l, l ∈ leaves (state w) →
       ∃ p, find_person_by_id (state w) (LeaveRecord.personnel_id l) = Some p
            ∧ p ∈ personnel (state w)
            ∧ Militar (dashboard_row (state w) l) = Personnel.nome p
            ∧ Grad (dashboard_row (state w) l) = Personnel.grad p.
Proof.
  intros Hr l Hl.
  destruct (owners_exist_reachable w Hr l Hl) as (q & Hq & Hid).
  destruct (ids_positional_reachable w Hr) as [Hpos _].
  apply positional_NoDup in Hpos.
  destruct (every_person_found_aux (state w) Hpos q Hq) as [i Hfind].
  rewrite Hid in Hfind.
  exists q. unfold dashboard_row.
  rewrite (proj2 (find_person_by_id_Some _ _ _) (ex_intro _ i Hfind)). done.
Qed.

Lemma owners_are_found_witness :
  reachable None w_two_leaves
  ∧ ∀ l, l ∈ leaves (state w_two_leaves) →
         is_Some (find_person_by_id (state w_two_leaves)
                    (LeaveRecord.personnel_id l)).
Proof.
  split; [exact w_two_leaves_reachable|].
  intros l Hl.
  destruct (owners_are_found w_two_leaves w_two_leaves_reachable l Hl)
    as (p & Hp & _).
  by exists p.
Defined.

(** X8. From a fresh start, every stored rank, role and leave type is a
    value of its enumeration: the select boxes are the only source of
    these fields, and the balance update does not touch them. *)
Theorem enumerations_hold w :
  reachable None w →
  Forall (λ p, is_value_of Rank_value all_Rank (Personnel.grad p) = true
               ∧ is_value_of UserRole_value all_UserRole (Personnel.role p) = true)
         (personnel (state w))
  ∧ Forall (λ l, is_value_of LeaveType_value all_LeaveType (LeaveRecord.type l) = true)
           (leaves (state w)).
Proof.
  apply (reachable_invariant None (λ st,
    Forall (λ p, is_value_of Rank_value all_Rank (Personnel.grad p) = true
                 ∧ is_value_of UserRole_value all_UserRole (Personnel.role p) = true)
           (personnel st)
    ∧ Forall (λ l, is_value_of LeaveType_value all_LeaveType (LeaveRecord.type l) = true)
             (leaves st))).
  - intros st [= <-]. by split; constructor.
  - intros w0 sub f msg w' [Hp Hl] _
      (_ & _ & Hps & Hls & _)%page_personnel_success_inv.
    rewrite Hps, Hls. split; [|done].
    apply Forall_app. split; [done|]. constructor; [|constructor]. simpl.
    split; [by destruct (f_grad f) | by destruct (f_role f)].
  - intros w0 pid env f now msg w' [Hp Hl]
      (i & person & Hfind & _ & Hps & Hls & _)%logLeave_success_inv.
    destruct (find_person_ref_Some _ _ _ _ Hfind) as [Hi _].
    rewrite Hps, Hls. split.
    + apply Forall_insert; [done|].
      destruct (adjust_balances_same (LeaveType_value (f_tipo f))
                  (Date.sub_days (f_end f) (f_start f) + 1) person)
        as (_ & _ & Hg & _ & _ & _ & _ & _ & _ & _ & Hr).
      rewrite <- Hg, <- Hr. by apply (proj1 (Forall_lookup _ _) Hp i).
    + apply Forall_app. split; [done|]. constructor; [|constructor]. simpl.
      by destruct (f_tipo f).
Qed.

Lemma enumerations_hold_witness :
  reachable None w_two_leaves
  ∧ Forall (λ l, is_value_of LeaveType_value all_LeaveType (LeaveRecord.type l) = true)
           (leaves (state w_two_leaves)).
Proof.
  split; [exact w_two_leaves_reachable|].
  exact (proj2 (enumerations_hold w_two_leaves w_two_leaves_reachable)).
Defined.

(** ** Dates of a logged leave *)

(** X9. For dates the date widgets can give, a leave that is logged spans
    at least one day, and the start text stored in its record is not after
    the end text. *)
Theorem logged_leave_dates w pid enviar f now msg w' :
  Date.valid (f_start f) = true → Date.valid (f_end f) = true →
  logLeave w pid enviar f now = (StSuccess msg, w') →
  1 ≤ Date.sub_days (f_end f) (f_start f) + 1
  ∧ ∃ new, last (leaves (state w')) = Some new
           ∧ LeaveRecord.startDate new = Date.isoformat (f_start f)
           ∧ LeaveRecord.endDate new = Date.isoformat (f_end f)
           ∧ String.leb (LeaveRecord.startDate new) (LeaveRecord.endDate new) = true.
Proof.
  intros Hs He (i & person & _ & Hlt & _ & Hls & _)%logLeave_success_inv.
  split; [by apply accepted_days_positive|].
  eexists. rewrite Hls, last_snoc. split_and!; [done..|]. simpl.
  by rewrite isoformat_leb, Hlt.
Qed.

Lemma logged_leave_dates_witness :
  Date.valid (f_start abono_fev) = true ∧ Date.valid (f_end abono_fev) = true
  ∧ logLeave w_two "P2" true abono_fev "2024-02-01T08:30:00"
    = (StSuccess "Afastamento lançado com sucesso!", w_two_leaves)
  ∧ 1 ≤ Date.sub_days (f_end abono_fev) (f_start abono_fev) + 1.
Proof.
  assert (logLeave w_two "P2" true abono_fev "2024-02-01T08:30:00"
          = (StSuccess "Afastamento lançado com sucesso!", w_two_leaves)) as Hrun
    by (vm_compute; reflexivity).
  split_and!; [reflexivity | reflexivity | exact Hrun |].
  exact (proj1 (logged_leave_dates w_two "P2" true abono_fev _ _ _
                  eq_refl eq_refl Hrun)).
Defined.

(** ** Balances *)

(** X10. For dates the widgets can give and balances that are not
    negative, logging a leave raises no balance of any person, and lowers
    the balance it debits whenever that balance was positive. *)
Theorem balances_only_go_down w pid enviar f now msg w' :
  Date.valid (f_start f) = true → Date.valid (f_end f) = true →
  balances_nonneg (state w) →
  logLeave w pid enviar f now = (StSuccess msg, w') →
  (∀ j p p', personnel (state w) !! j = Some p →
             personnel (state w') !! j = Some p' →
             0 ≤ Personnel.saldoFerias p' ≤ Personnel.saldoFerias p
             ∧ 0 ≤ Personnel.saldoAbono p' ≤ Personnel.saldoAbono p)
  ∧ ∀ before after,
      find_person_by_id (state w) pid = Some before →
      find_person_by_id (state w') pid = Some after →
      (f_tipo f = FERIAS → 0 < Personnel.saldoFerias before →
       Personnel.saldoFerias after < Personnel.saldoFerias before)
      ∧ (f_tipo f = ABONO → 0 < Personnel.saldoAbono before →
         Personnel.saldoAbono after < Personnel.saldoAbono before).
Proof.
  intros Hs He Hnn Hrun.
  destruct (logLeave_success_inv _ _ _ _ _ _ _ Hrun)
    as (i & person & Hfind & Hlt & Hps & Hls & _).
  pose proof (accepted_days_positive f Hs He Hlt) as Hdays.
  set (days := Date.sub_days (f_end f) (f_start f) + 1) in *.
  destruct (find_person_ref_Some _ _ _ _ Hfind) as [Hi Hid].
  assert (∀ p, 0 ≤ Personnel.saldoFerias p ∧ 0 ≤ Personnel.saldoAbono p →
               let p' := adjust_balances (LeaveType_value (f_tipo f)) days p in
               0 ≤ Personnel.saldoFerias p' ≤ Personnel.saldoFerias p
               ∧ 0 ≤ Personnel.saldoAbono p' ≤ Personnel.saldoAbono p) as Hadj.
  { intros p Hp. simpl. rewrite adjust_balances_tipo.
    destruct (f_tipo f); simpl; lia. }
  split.
  - intros j p p' Hj Hj'. rewrite Hps in Hj'.
    pose proof (proj1 (Forall_lookup _ _) Hnn j p Hj) as Hp. simpl in Hp.
    destruct (decide (j = i)) as [->|Hne].
    + rewrite list_lookup_insert_eq in Hj' by (by eapply lookup_lt_Some).
      injection Hj' as <-. assert (p = person) as -> by congruence.
      by apply Hadj.
    + rewrite list_lookup_insert_ne in Hj' by done.
      replace p' with p by congruence. lia.
  - intros before after [i0 Hb]%find_person_by_id_Some Ha.
    assert (before = person) as -> by congruence.
    assert (find_person_by_id (state w') pid
            = Some (adjust_balances (LeaveType_value (f_tipo f)) days person))
      as Ha'.
    { apply find_person_by_id_Some. exists i.
      destruct (state w') as [ps' ls']. simpl in Hps. rewrite Hps.
      apply (find_person_ref_update _ _ _ person); [done|].
      by rewrite adjust_balances_id. }
    rewrite Ha' in Ha. injection Ha as <-.
    rewrite adjust_balances_tipo.
    split; intros ->; simpl; lia.
Qed.

Lemma balances_only_go_down_witness :
  logLeave w_two "P2" true abono_fev "2024-02-01T08:30:00"
  = (StSuccess "Afastamento lançado com sucesso!", w_two_leaves)
  ∧ ∀ j p p', personnel (state w_two) !! j = Some p →
              personnel (state w_two_leaves) !! j = Some p' →
              0 ≤ Personnel.saldoFerias p' ≤ Personnel.saldoFerias p
              ∧ 0 ≤ Personnel.saldoAbono p' ≤ Personnel.saldoAbono p.
Proof.
  assert (logLeave w_two "P2" true abono_fev "2024-02-01T08:30:00"
          = (StSuccess "Afastamento lançado com sucesso!", w_two_leaves)) as Hrun
    by (vm_compute; reflexivity).
  split; [exact Hrun|].
  refine (proj1 (balances_only_go_down w_two "P2" true abono_fev _ _ _
                   eq_refl eq_refl _ Hrun)).
  unfold balances_nonneg. vm_compute. repeat constructor; discriminate.
Defined.

(** ** The dashboard metrics *)

Lemma em_ferias_snoc ps ls l hoje :
  em_ferias (mkAppState ps (ls ++ [l])) hoje
  = em_ferias (mkAppState ps ls) hoje + (if on_vacation hoje l then 1 else 0).
Proof.
  unfold em_ferias. simpl. rewrite foldl_app. simpl.
  destruct (on_vacation hoje l); lia.
Qed.

(** X11. Effect of a logged leave on the dashboard, for dates the widgets
    can give: the total of persons stays, and the vacation counter grows by
    one exactly when the leave is of type FÉRIAS and its range, both ends
    included, holds the day of the dashboard; otherwise it stays. *)
Theorem dashboard_after_leave w pid enviar f now msg w' today :
  Date.valid today = true →
  Date.valid (f_start f) = true → Date.valid (f_end f) = true →
  logLeave w pid enviar f now = (StSuccess msg, w') →
  page_dashboard (state w') today
  = ((page_dashboard (state w) today).1,
     (page_dashboard (state w) today).2
     + (if bool_decide (f_tipo f = FERIAS)
           && (negb (Date.ltb today (f_start f))
               && negb (Date.ltb (f_end f) today))
        then 1 else 0)).
Proof.
  intros Ht Hs He
    (i & person & Hfind & _ & Hps & Hls & _)%logLeave_success_inv.
  destruct (find_person_ref_Some _ _ _ _ Hfind) as [_ Hid].
  unfold page_dashboard. cbn [fst snd].
  destruct (state w') as [ps' ls'], (state w) as [ps ls]. simpl in *.
  subst ps' ls'. rewrite length_insert, em_ferias_snoc. f_equal.
  rewrite <- Hid, (on_vacation_dates today f (mkAppState ps ls)) by done.
  done.
Qed.

Lemma dashboard_after_leave_witness :
  logLeave w_maria "P1" true ferias_jan "2024-01-01T09:00:00"
  = (StSuccess "Afastamento lançado com sucesso!", w_ferias)
  ∧ page_dashboard (state w_ferias) (Date.mk 2024 1 10) = (1, 1).
Proof.
  assert (logLeave w_maria "P1" true ferias_jan "2024-01-01T09:00:00"
          = (StSuccess "Afastamento lançado com sucesso!", w_ferias)) as Hrun
    by (vm_compute; reflexivity).
  split; [exact Hrun|].
  rewrite (dashboard_after_leave w_maria "P1" true ferias_jan _ _ _
             (Date.mk 2024 1 10) eq_refl eq_refl eq_refl Hrun).
  reflexivity.
Defined.

(** X12. Effect of a registration on the dashboard: the total of persons
    grows by one and the vacation counter stays. *)
Theorem dashboard_after_registration w submitted f msg w' today :
  page_personnel w submitted f = (StSuccess msg, w') →
  page_dashboard (state w') today
  = ((page_dashboard (state w) today).1 + 1, (page_dashboard (state w) today).2).
Proof.
  intros (_ & _ & Hps & Hls & _)%page_personnel_success_inv.
  unfold page_dashboard, em_ferias. cbn [fst snd].
  rewrite Hps, Hls, length_app. simpl. f_equal. lia.
Qed.

Lemma dashboard_after_registration_witness :
  page_personnel w_ferias true joao_form
  = (StSuccess "Militar João Souza cadastrado com sucesso!", w_two)
  ∧ page_dashboard (state w_two) (Date.mk 2024 1 5) = (2, 1).
Proof.
  assert (page_personnel w_ferias true joao_form
          = (StSuccess "Militar João Souza cadastrado com sucesso!", w_two))
    as Hrun by (vm_compute; reflexivity).
  split; [exact Hrun|].
  rewrite (dashboard_after_registration _ _ _ _ _ (Date.mk 2024 1 5) Hrun).
  reflexivity.
Defined.

(** X13. From a fresh start, the vacation counter of the dashboard is the
    number of persons on vacation whenever no two of the records it counts
    belong to the same person. *)
Theorem em_ferias_counts_persons w hoje :
  reachable None w →
  NoDup (LeaveRecord.personnel_id
           <$> filter (λ l, on_vacation hoje l = true) (leaves (state w))) →
  em_ferias (state w) hoje = persons_on_vacation (state w) hoje.
Proof.
  intros Hr Hdistinct. apply em_ferias_distinct_owners; [| |done].
  - destruct (ids_positional_reachable w Hr) as [Hpos _].
    by eapply positional_NoDup.
  - by apply owners_exist_reachable.
Qed.

Lemma em_ferias_counts_persons_witness :
  reachable None w_two_leaves
  ∧ em_ferias (state w_two_leaves) "2024-01-05"
    = persons_on_vacation (state w_two_leaves) "2024-01-05".
Proof.
  split; [exact w_two_leaves_reachable|].
  apply (em_ferias_counts_persons _ _ w_two_leaves_reachable).
  apply (bool_decide_unpack _). by vm_compute.
Defined.

(** X14. For dates the widgets can give, the three orders the pages rely
    on agree: the comparison of two dates, the comparison of their
    ordinals (whose difference is the number of days), and the comparison
    of their ISO texts as stored in the records. *)
Theorem date_orders_agree a b :
  Date.valid a = true → Date.valid b = true →
  Date.ltb a b = (Date.toordinal a <? Date.toordinal b)
  ∧ String.leb (Date.isoformat a) (Date.isoformat b) = negb (Date.ltb b a)
  ∧ (Date.ltb a b = true ↔ 0 < Date.sub_days b a).
Proof.
  intros Ha Hb. split_and!.
  - by apply ltb_toordinal.
  - by apply isoformat_leb.
  - rewrite ltb_toordinal, Z.ltb_lt by done. unfold Date.sub_days. lia.
Qed.

Lemma date_orders_agree_witness :
  Date.valid (Date.mk 2024 2 29) = true ∧ Date.valid (Date.mk 2024 3 1) = true
  ∧ String.leb (Date.isoformat (Date.mk 2024 2 29))
               (Date.isoformat (Date.mk 2024 3 1))
    = negb (Date.ltb (Date.mk 2024 3 1) (Date.mk 2024 2 29)).
Proof.
  split_and!; [reflexivity | reflexivity |].
  exact (proj1 (proj2 (date_orders_agree (Date.mk 2024 2 29) (Date.mk 2024 3 1)
                         eq_refl eq_refl))).
Defined.

(** ** The select box *)

Lemma options_snoc ps ls p :
  options (mkAppState (ps ++ [p]) ls)
  = <[person_label p := Personnel.id p]> (options (mkAppState ps ls)).
Proof. unfold options. simpl. by rewrite foldl_app. Qed.

(** X15. The identifier the select box stores under a label is the
    identifier of the last person of the collection who has that label; a
    label no person has is not offered.  So of persons with the same name,
    rank and registration number only the last one registered is
    selectable by that label. *)
Theorem options_last_person st label :
  options st !! label
  = Personnel.id <$> last (filter (λ p, person_label p = label) (personnel st)).
Proof.
  destruct st as [ps ls]. simpl.
  induction ps as [|p ps IH] using rev_ind.
  - unfold options. simpl. by rewrite lookup_empty.
  - rewrite options_snoc, lookup_insert, filter_app, filter_cons, filter_nil.
    destruct (decide (person_label p = label)) as [Hl|Hl].
    + by rewrite last_snoc.
    + by rewrite app_nil_r.
Qed.



(** ** Loading *)

Lemma dict_get_Some_elem k v kw :
  NoDup kw.*1 → dict_get k kw = Some v ↔ (k, v) ∈ kw.
Proof.
  induction kw as [|[k' v'] kw IH]; simpl.
  - intros _. split; [done | by intros ?%elem_of_nil].
  - intros [Hk' Hnd]%NoDup_cons. rewrite elem_of_cons.
    destruct (String.eqb_spec k' k) as [->|Hne].
    + split; [intros [= ->]; by left|].
      intros [[= ->]|Hin]; [done|]. destruct Hk'.
      apply list_elem_of_fmap. by exists (k, v).
    + rewrite IH by done. split; [by right|]. by intros [[= ? ?]|?].
Qed.

Lemma dict_get_perm k kw kw' :
  kw ≡ₚ kw' → NoDup kw.*1 → dict_get k kw = dict_get k kw'.
Proof.
  intros Hperm Hnd. apply option_eq. intros v.
  assert (NoDup kw'.*1) as Hnd' by (by rewrite <- Hperm).
  rewrite !dict_get_Some_elem by done. by rewrite Hperm.
Qed.

Lemma kwargs_match_keys fields kw :
  kwargs_match fields kw = true ↔ ∀ k, k ∈ kw.*1 ↔ k ∈ fields.
Proof.
  unfold kwargs_match.
  rewrite andb_true_iff, !forallb_forall.
  assert (∀ k (l : list string),
            existsb (String.eqb k) l = true ↔ k ∈ l) as Hex.
  { intros k l. rewrite existsb_exists. split.
    - intros (x & Hx%list_elem_of_In & ->%String.eqb_eq). done.
    - intros Hk. exists k. split; [by apply list_elem_of_In | apply String.eqb_refl]. }
  split.
  - intros [H1 H2] k. split.
    + intros Hk%list_elem_of_In. apply Hex. by apply H1.
    + intros Hk%list_elem_of_In. apply Hex. by apply H2.
  - intros H. split; intros k Hk%list_elem_of_In; apply Hex; by apply H.
Qed.

Lemma kwargs_match_perm fields kw kw' :
  kw ≡ₚ kw' → kwargs_match fields kw = kwargs_match fields kw'.
Proof.
  intros Hperm. apply eq_true_iff_eq. rewrite !kwargs_match_keys.
  by setoid_rewrite Hperm.
Qed.

(** X17. The order in which a document lists the fields of an entry does
    not matter: two lists of the same items (one item per key) build the
    same person and the same leave record, or fail alike. *)
Theorem entry_order_irrelevant kw kw' :
  kw ≡ₚ kw' → NoDup kw.*1 →
  Personnel_kwargs (VDict kw) = Personnel_kwargs (VDict kw')
  ∧ LeaveRecord_kwargs (VDict kw) = LeaveRecord_kwargs (VDict kw').
Proof.
  intros Hperm Hnd.
  unfold Personnel_kwargs, LeaveRecord_kwargs, Personnel_typed, LeaveRecord_typed.
  rewrite !(kwargs_match_perm _ kw kw') by done.
  by rewrite !(dict_get_perm _ kw kw') by done.
Qed.

Lemma entry_order_irrelevant_witness :
  LeaveRecord_kwargs
    (VDict [("personnel_id", VStr "P1"); ("id", VStr "L1");
            ("type", VStr "ABONO"); ("startDate", VStr "2024-01-01");
            ("endDate", VStr "2024-01-02"); ("description", VStr "");
            ("createdAt", VStr "2024-01-01T09:00:00")])
  = Built (LeaveRecord.mk "L1" "P1" "ABONO" "2024-01-01" "2024-01-02" ""
             "2024-01-01T09:00:00").
Proof.
  rewrite <- (LeaveRecord_kwargs_asdict
                (LeaveRecord.mk "L1" "P1" "ABONO" "2024-01-01" "2024-01-02" ""
                   "2024-01-01T09:00:00")).
  refine (proj2 (entry_order_irrelevant _ _ _ _)).
  - apply perm_swap.
  - apply (bool_decide_unpack _). by vm_compute.
Defined.

Lemma comprehension_raises {A} (f : pyval → built A) xs x e :
  x ∈ xs → f x = BuildRaised e → ∃ e', comprehension f xs = BuildRaised e'.
Proof.
  induction xs as [|y xs IH]; [by intros ?%elem_of_nil|].
  intros [->|Hin]%elem_of_cons Hx; simpl.
  - rewrite Hx. by eexists.
  - destruct (IH Hin Hx) as [e' He']. rewrite He'.
    destruct (f y); by eexists.
Qed.

Lemma comprehension_over_raises {A} (f : pyval → built A) xs x e :
  x ∈ xs → f x = BuildRaised e →
  ∃ e', comprehension_over f (VList xs) = BuildRaised e'.
Proof. unfold comprehension_over. cbn [py_iter]. apply comprehension_raises. Qed.

Lemma load_state_raised_dict raw e :
  load_state (Some (VDict raw)) = BuildRaised e → e = TypeError.
Proof.
  unfold load_state.
  destruct (comprehension_over Personnel_kwargs _) as [ps| |e1] eqn:Hps.
  - destruct (comprehension_over LeaveRecord_kwargs _) as [ls| |e2] eqn:Hls;
      try done.
    intros [= <-].
    by eapply comprehension_over_raised, Hls; apply LeaveRecord_kwargs_raised.
  - destruct (comprehension_over LeaveRecord_kwargs _) as [ls| |e2] eqn:Hls;
      try done.
    intros [= <-].
    by eapply comprehension_over_raised, Hls; apply LeaveRecord_kwargs_raised.
  - intros [= <-].
    by eapply comprehension_over_raised, Hps; apply Personnel_kwargs_raised.
Qed.

(** X18. Loading is all or nothing: when one entry of the "personnel" list
    or of the "leaves" list cannot be constructed, [load_state] returns no
    state at all; it raises [TypeError]. *)
Theorem load_all_or_nothing raw :
  (∃ ps x e, dict_get "personnel" raw = Some (VList ps)
             ∧ x ∈ ps ∧ Personnel_kwargs x = BuildRaised e)
  ∨ (∃ ls x e, dict_get "leaves" raw = Some (VList ls)
               ∧ x ∈ ls ∧ LeaveRecord_kwargs x = BuildRaised e) →
  load_state (Some (VDict raw)) = BuildRaised TypeError.
Proof.
  intros H.
  assert (∃ e, load_state (Some (VDict raw)) = BuildRaised e) as [e He].
  { unfold load_state.
    destruct H as [(ps & x & e & Hget & Hx & Hraise)|(ls & x & e & Hget & Hx & Hraise)];
      rewrite Hget.
    - change (default (VList []) (Some (VList ps))) with (VList ps).
      destruct (comprehension_over_raises _ _ _ _ Hx Hraise) as [e' ->].
      by eexists.
    - change (default (VList []) (Some (VList ls))) with (VList ls).
      destruct (comprehension_over_raises _ _ _ _ Hx Hraise) as [e' ->].
      destruct (comprehension_over Personnel_kwargs _); by eexists. }
  by rewrite He, (load_state_raised_dict _ _ He).
Qed.

Lemma load_all_or_nothing_witness :
  load_state (Some doc_missing_field) = BuildRaised TypeError.
Proof.
  apply load_all_or_nothing. left.
  exists [VDict [("id", VStr "P1"); ("nome", VStr "Rui")]],
         (VDict [("id", VStr "P1"); ("nome", VStr "Rui")]), TypeError.
  split_and!; [reflexivity | left | reflexivity].
Defined.

Lemma comprehension_built {A} (f : pyval → built A) xs :
  (∀ x, x ∈ xs → ∃ a, f x = Built a) →
  ∃ l, comprehension f xs = Built l ∧ length l = length xs.
Proof.
  induction xs as [|x xs IH]; intros Hxs; simpl; [by exists []|].
  destruct (Hxs x) as [a ->]; [left|].
  destruct IH as (l & -> & Hlen); [intros y Hy; apply Hxs; by right|].
  exists (a :: l). simpl. by rewrite Hlen.
Qed.

Lemma entry_matches_built {A} fields (typed : list (string * pyval) → option A)
    (f : pyval → built A) :
  (∀ kw, f (VDict kw) =
         if kwargs_match fields kw then
           match typed kw with Some x => Built x | None => BuiltUntyped end
         else BuildRaised TypeError) →
  ∀ x, entry_matches fields typed x = true → ∃ a, f x = Built a.
Proof.
  intros Hf [| | | | |kw]; simpl; try done.
  intros [Hk Ht%bool_decide_eq_true]%andb_true_iff.
  destruct Ht as [a Ha]. exists a. by rewrite Hf, Hk, Ha.
Qed.

(** X19. Every document [save_state] writes has the shape of a snapshot:
    the two keys, and under each a list of entries with exactly the fields
    of the dataclass, every value of the field's type. *)
Theorem saved_document_shape st :
  ∃ doc, save_state st = Some doc ∧ matches_schema doc = true.
Proof.
  eexists. split; [done|]. destruct st as [ps ls]. simpl.
  apply andb_true_iff. split.
  - apply forallb_forall. intros x (p & <- & _)%in_map_iff. by destruct p.
  - apply forallb_forall. intros x (l & <- & _)%in_map_iff. by destruct l.
Qed.

(** X20. Every document that has the shape of a snapshot loads: the
    result is a state with one person per entry of "personnel" and one
    leave record per entry of "leaves", whatever the values of the fields
    are. *)
Theorem shaped_document_loads doc :
  matches_schema doc = true →
  ∃ st ps ls raw,
    doc = VDict raw
    ∧ dict_get "personnel" raw = Some (VList ps)
    ∧ dict_get "leaves" raw = Some (VList ls)
    ∧ load_state (Some doc) = Built st
    ∧ length (personnel st) = length ps
    ∧ length (leaves st) = length ls.
Proof.
  destruct doc as [| | | | |raw]; try done. simpl.
  intros [_ H]%andb_true_iff.
  destruct (dict_get "personnel" raw) as [[| | | |ps|]|] eqn:Hp; try done.
  destruct (dict_get "leaves" raw) as [[| | | |ls|]|] eqn:Hl; try done.
  apply andb_true_iff in H as [Hps Hls].
  rewrite forallb_forall in Hps, Hls.
  destruct (comprehension_built Personnel_kwargs ps) as (xs & Hxs & Hlen).
  { intros x Hx%list_elem_of_In.
    by apply (entry_matches_built Personnel_fields Personnel_typed), Hps. }
  destruct (comprehension_built LeaveRecord_kwargs ls) as (ys & Hys & Hlen').
  { intros x Hx%list_elem_of_In.
    by apply (entry_matches_built LeaveRecord_fields LeaveRecord_typed), Hls. }
  exists (mkAppState xs ys), ps, ls, raw.
  split_and!; [done.. | | done | done].
  unfold comprehension_over. simpl. by rewrite Hxs, Hys.
Qed.

Lemma shaped_document_loads_witness :
  matches_schema doc_negative = true
  ∧ ∃ st, load_state (Some doc_negative) = Built st
          ∧ length (personnel st) = 1%nat.
Proof.
  assert (matches_schema doc_negative = true) as Hm by (by vm_compute).
  split; [exact Hm|].
  destruct (shaped_document_loads doc_negative Hm)
    as (st & ps & ls & raw & Hdoc & Hp & _ & Hload & Hlen & _).
  exists st. split; [exact Hload|].
  injection Hdoc as <-. vm_compute in Hp. injection Hp as <-. exact Hlen.
Defined.

(** ** Sorted views *)

(** X21. The dashboard table shows the ten most recent leaves, newest
    first: it has min(10, number of leaves) rows, one per record shown; the
    records shown are in descending order of creation time; together with
    the records left out they are the leave collection; and no record left
    out is more recent than a record shown.  The page shows the message
    instead of the table exactly when there is no leave. *)
Theorem dashboard_shows_most_recent st :
  let rest := drop 10 (sorted_desc LeaveRecord.createdAt (leaves st)) in
  length (dashboard_rows st) = (10 `min` length (leaves st))%nat
  ∧ dashboard_rows st = dashboard_row st <$> sorted_leaves st
  ∧ StronglySorted (descending LeaveRecord.createdAt) (sorted_leaves st)
  ∧ sorted_leaves st ++ rest ≡ₚ leaves st
  ∧ (∀ shown hidden, shown ∈ sorted_leaves st → hidden ∈ rest →
       String.leb (LeaveRecord.createdAt hidden) (LeaveRecord.createdAt shown)
       = true)
  ∧ (page_dashboard_table st = StInfo "Ainda não há afastamentos cadastrados."
     ↔ leaves st = []).
Proof.
  intros rest. subst rest. unfold dashboard_rows, sorted_leaves.
  pose proof (sorted_desc_sorted LeaveRecord.createdAt (leaves st)) as Hsorted.
  pose proof (sorted_desc_perm LeaveRecord.createdAt (leaves st)) as Hperm.
  rewrite <- (take_drop 10 (sorted_desc LeaveRecord.createdAt (leaves st)))
    in Hsorted.
  assert (length (take 10 (sorted_desc LeaveRecord.createdAt (leaves st)))
          = (10 `min` length (leaves st))%nat) as Hlen.
  { by rewrite length_take, Hperm. }
  split_and!.
  - by rewrite length_map.
  - done.
  - by eapply StronglySorted_app_1_l.
  - by rewrite take_drop.
  - intros shown hidden Hs Hh.
    change (descending LeaveRecord.createdAt shown hidden).
    by eapply StronglySorted_app_1_elem_of.
  - unfold page_dashboard_table, dashboard_rows, sorted_leaves.
    destruct (leaves st) as [|l ls] eqn:Hls; [done|].
    split; [|done].
    destruct (take 10 _) eqn:Ht; [|done]. simpl in Hlen. lia.
Qed.

(** X22. The leaves shown for the selected person are the records
    [get_leaves_for_person] gives for that person, each once, in
    descending order of start date, records with the same start date in
    the order they were logged; the page shows the message instead exactly
    when no record names the person. *)
Theorem history_newest_start_first st pid :
  let person_leaves := get_leaves_for_person st pid in
  let shown := sorted_desc LeaveRecord.startDate person_leaves in
  shown ≡ₚ person_leaves
  ∧ StronglySorted (descending LeaveRecord.startDate) shown
  ∧ (∀ d, filter (λ l, LeaveRecord.startDate l = d) shown
          = filter (λ l, LeaveRecord.startDate l = d) person_leaves)
  ∧ (page_leaves_history st pid
     = StInfo "Este militar ainda não possui afastamentos lançados."
     ↔ ∀ l, l ∈ leaves st → LeaveRecord.personnel_id l ≠ pid)
  ∧ (person_leaves ≠ [] →
     page_leaves_history st pid = StTable (history_row <$> shown)).
Proof.
  intros person_leaves shown. split_and!.
  - apply sorted_desc_perm.
  - apply sorted_desc_sorted.
  - intros d. apply sorted_desc_stable.
  - unfold page_leaves_history. fold person_leaves.
    destruct person_leaves as [|l ls] eqn:Hpl.
    + split; [|done]. intros _ l Hl Hid.
      assert (l ∈ get_leaves_for_person st pid) as Hin
        by (by apply list_elem_of_filter).
      fold person_leaves in Hin. rewrite Hpl in Hin. by apply elem_of_nil in Hin.
    + split; [done|]. intros Hnone.
      assert (l ∈ person_leaves) as Hin by (rewrite Hpl; left).
      apply list_elem_of_filter in Hin as [Hid Hin]. by destruct (Hnone l Hin).
  - unfold page_leaves_history. fold person_leaves.
    by destruct person_leaves.
Qed.

(** ** The report by type *)

Lemma counts_get_set k k' v counts :
  counts_get k' (counts_set k v counts)
  = if String.eqb k k' then Some v else counts_get k' counts.
Proof.
  induction counts as [|[k0 v0] counts IH]; simpl.
  - done.
  - destruct (String.eqb_spec k0 k) as [->|Hne]; simpl.
    + by destruct (String.eqb k k').
    + rewrite IH. destruct (String.eqb_spec k0 k') as [->|Hne'].
      * by rewrite (proj2 (String.eqb_neq _ _)) by done.
      * done.
Qed.

Lemma counts_total_set k counts :
  counts_total (counts_set k (default 0 (counts_get k counts) + 1) counts)
  = counts_total counts + 1.
Proof.
  induction counts as [|[k0 v0] counts IH]; simpl.
  - unfold counts_total. simpl. lia.
  - destruct (String.eqb_spec k0 k) as [->|Hne]; unfold counts_total in *;
      simpl in *; lia.
Qed.

Lemma counts_keys_set k v counts :
  (counts_set k v counts).*1
  = if bool_decide (k ∈ counts.*1) then counts.*1 else (counts.*1 ++ [k])%list.
Proof.
  induction counts as [|[k0 v0] counts IH]; [done|].
  cbn [counts_set]. rewrite fmap_cons. cbn [fst].
  destruct (String.eqb_spec k0 k) as [->|Hne]; rewrite fmap_cons; cbn [fst].
  - rewrite bool_decide_eq_true_2; [done | left].
  - rewrite IH. destruct (decide (k ∈ counts.*1)) as [Hin|Hnin].
    + rewrite !bool_decide_eq_true_2; [done | by right | done].
    + rewrite !bool_decide_eq_false_2; [done | | done].
      intros [?|?]%elem_of_cons; congruence.
Qed.

Lemma leave_counts_snoc ps ls l :
  leave_counts (mkAppState ps (ls ++ [l]))
  = counts_set (LeaveRecord.type l)
      (default 0 (counts_get (LeaveRecord.type l)
                    (leave_counts (mkAppState ps ls))) + 1)
      (leave_counts (mkAppState ps ls)).
Proof. unfold leave_counts. simpl. by rewrite foldl_app. Qed.

(** X23. In the report, the quantity of a type is the number of leave
    records of that type, and a type without records has no row. *)
Theorem leave_counts_by_type st t :
  counts_get t (leave_counts st)
  = let n := length (filter (λ l, LeaveRecord.type l = t) (leaves st)) in
    if decide (n = 0%nat) then None else Some (Z.of_nat n).
Proof.
  destruct st as [ps ls]. cbn [leaves].
  induction ls as [|l ls IH] using rev_ind; [reflexivity|].
  rewrite leave_counts_snoc, counts_get_set, IH. cbn zeta.
  rewrite filter_app, length_app, filter_cons, filter_nil.
  destruct (String.eqb_spec (LeaveRecord.type l) t) as [Ht|Ht].
  - rewrite (decide_True (P := LeaveRecord.type l = t)) by done. cbn [length].
    rewrite (decide_False (P := (_ + 1)%nat = 0%nat)) by lia.
    rewrite Ht, IH. cbn zeta. f_equal.
    destruct (decide (length (filter (λ l0, LeaveRecord.type l0 = t) ls) = 0%nat))
      as [->|?]; cbn [default from_option id]; lia.
  - rewrite (decide_False (P := LeaveRecord.type l = t)) by done.
    cbn [length]. by rewrite Nat.add_0_r.
Qed.

(** X24. The report has one row per type that occurs, its quantities add
    up to the number of leave records, and the page shows the message
    instead of the table exactly when there is no leave. *)
Theorem leave_counts_total st :
  NoDup (leave_counts st).*1
  ∧ (∀ t, t ∈ (leave_counts st).*1 ↔ t ∈ LeaveRecord.type <$> leaves st)
  ∧ counts_total (leave_counts st) = Z.of_nat (length (leaves st))
  ∧ (page_reports st = StInfo "Ainda não há afastamentos lançados."
     ↔ leaves st = []).
Proof.
  destruct st as [ps ls]. simpl.
  assert (NoDup (leave_counts (mkAppState ps ls)).*1
          ∧ (∀ t, t ∈ (leave_counts (mkAppState ps ls)).*1
                  ↔ t ∈ LeaveRecord.type <$> ls)
          ∧ counts_total (leave_counts (mkAppState ps ls))
            = Z.of_nat (length ls)) as (Hnd & Hkeys & Htotal).
  { induction ls as [|l ls (Hnd & Hkeys & Htotal)] using rev_ind.
    - split_and!; [constructor | done | done].
    - rewrite leave_counts_snoc, counts_keys_set, counts_total_set, Htotal,
        length_app, fmap_app. simpl.
      destruct (decide (LeaveRecord.type l ∈ (leave_counts (mkAppState ps ls)).*1))
        as [Hin|Hnin].
      + rewrite bool_decide_eq_true_2 by done. split_and!; [done | | lia].
        intros t. rewrite elem_of_app, list_elem_of_singleton, <- Hkeys.
        split; [by left | by intros [?| ->]].
      + rewrite bool_decide_eq_false_2 by done. split_and!; [| | lia].
        * apply NoDup_app. split_and!; [done | | apply NoDup_singleton].
          intros t Ht ->%list_elem_of_singleton. done.
        * intros t. by rewrite !elem_of_app, Hkeys. }
  split_and!; [done..|].
  unfold page_reports.
  destruct (leave_counts (mkAppState ps ls)) as [|r rows] eqn:Hc.
  - split; [|done]. intros _. unfold counts_total in Htotal. simpl in Htotal.
    destruct ls; [done | simpl in Htotal; lia].
  - split; [done|]. intros ->. done.
Qed.
